(** * beanie.odm.utils.general: model resolution and initialization

    A shallow embedding of [get_model] and [init_beanie]
    (beanie/odm/utils/general.py) together with the properties of the
    reference resolver and of the initialization orchestrator.

    Python values are modelled as follows.
    - [str] is [string]; [None]-able parameters are [option]s.
    - An exception is a class of a small hierarchy with a message; a call
      either returns a value or raises ([CallResult]).
    - A model class is a record of its four class methods.  What a method
      does at call time is the emission of an [EvCall] event; a coroutine
      function returns a [Coroutine] whose body runs only when the event
      loop gives it a slice.
    - The event loop is driven by a schedule: the list of task numbers in
      the order in which the loop resumes them.  A statement about every
      schedule holds of whatever order the loop picks.
    - What [importlib], [yarl] and the driver do is not fixed: the importer
      and the calls into the two libraries are arguments, and each of them
      may raise.  The statements hold whatever they do.
    - [asyncio.gather] is modelled with its callback run in the slice in
      which a task ends; the loop of asyncio runs it an iteration later.

    The definitions come first, the statements about them after. *)

From Stdlib Require Import String Ascii List Arith Bool Lia.
From stdpp Require Import base list.
Import ListNotations.
Local Open Scope string_scope.
Local Open Scope list_scope.

(** ** Exceptions *)

(** The exception classes that occur in the module or cross it.
    [UnicodeError] is a subclass of [ValueError], [ModuleNotFoundError] of
    [ImportError]; [OperationFailure], [InvalidName] and [InvalidURI] are
    errors of the driver. *)
Inductive exc_class : Set :=
| ValueError
| UnicodeError
| AttributeError
| ImportError
| ModuleNotFoundError
| TypeError
| OperationFailure
| InvalidName
| InvalidURI.

Definition exc_class_eqb (c d : exc_class) : bool :=
  match c, d with
  | ValueError, ValueError
  | UnicodeError, UnicodeError
  | AttributeError, AttributeError
  | ImportError, ImportError
  | ModuleNotFoundError, ModuleNotFoundError
  | TypeError, TypeError
  | OperationFailure, OperationFailure
  | InvalidName, InvalidName
  | InvalidURI, InvalidURI => true
  | _, _ => false
  end.

(** The direct base class below [Exception], if any. *)
Definition exc_base (c : exc_class) : option exc_class :=
  match c with
  | UnicodeError => Some ValueError
  | ModuleNotFoundError => Some ImportError
  | _ => None
  end.

Definition issubclass (c d : exc_class) : bool :=
  exc_class_eqb c d ||
  match exc_base c with
  | Some b => exc_class_eqb b d
  | None => false
  end.

Record exn : Set := Exc { exc_type : exc_class; exc_msg : string }.

(** [isinstance e cls], as an [except cls] clause tests it. *)
Definition isinstance (e : exn) (cls : exc_class) : bool :=
  issubclass (exc_type e) cls.

Inductive CallResult (A : Type) : Type :=
| Returns (v : A)
| Raises (e : exn).
Arguments Returns {A} v.
Arguments Raises {A} e.

Definition cr_bind {A B : Type} (c : CallResult A) (k : A -> CallResult B)
  : CallResult B :=
  match c with
  | Returns v => k v
  | Raises e => Raises e
  end.

(** ** Strings *)

(** [s.rsplit(sep, 1)] for a one-character separator: the list of one
    string when [sep] does not occur, otherwise the parts before and after
    its last occurrence. *)
Fixpoint rsplit1 (sep : ascii) (s : string) : list string :=
  match s with
  | EmptyString => [EmptyString]
  | String c rest =>
      match rsplit1 sep rest with
      | [a; b] => [String c a; b]
      | _ => if Ascii.eqb c sep then [EmptyString; rest] else [s]
      end
  end.

(** [a, b = xs]: unpacking into two names. *)
Definition unpack2 (xs : list string) : CallResult (string * string) :=
  match xs with
  | [a; b] => Returns (a, b)
  | [] =>
      Raises (Exc ValueError "not enough values to unpack (expected 2, got 0)")
  | [_] =>
      Raises (Exc ValueError "not enough values to unpack (expected 2, got 1)")
  | _ => Raises (Exc ValueError "too many values to unpack (expected 2)")
  end.

(** [c in s] for a character. *)
Fixpoint contains_char (c : ascii) (s : string) : bool :=
  match s with
  | EmptyString => false
  | String d rest => Ascii.eqb d c || contains_char c rest
  end.

(** [s[1:]] *)
Definition drop_first (s : string) : string :=
  match s with
  | EmptyString => EmptyString
  | String _ rest => rest
  end.

(** [sub in s] for strings. *)
Fixpoint is_substring (sub s : string) : bool :=
  String.prefix sub s ||
  match s with
  | EmptyString => false
  | String _ rest => is_substring sub rest
  end.

(** How an f-string renders a variable that may still hold [None]. *)
Definition fmt (v : option string) : string :=
  match v with
  | Some s => s
  | None => "None"
  end.

(** ** Reading a plain URL

    The path of a URL with at most one host, no percent escape and no dot
    segment: an optional scheme up to the first colon, an authority after
    a double slash up to the next slash, question mark or hash, then the
    path up to the query or the fragment; an absolute URL with no path has
    the path "/".  It serves the examples only: in the statements the path
    of a connection string is whatever the library gives. *)

Definition is_alpha (c : ascii) : bool :=
  let n := nat_of_ascii c in
  ((65 <=? n)%nat && (n <=? 90)%nat) || ((97 <=? n)%nat && (n <=? 122)%nat).

Definition is_scheme_char (c : ascii) : bool :=
  let n := nat_of_ascii c in
  is_alpha c || ((48 <=? n)%nat && (n <=? 57)%nat)
  || Ascii.eqb c "+" || Ascii.eqb c "-" || Ascii.eqb c ".".

(** The part of [s] before the first character satisfying [stop], and the
    rest starting at that character. *)
Fixpoint break_at (stop : ascii -> bool) (s : string) : string * string :=
  match s with
  | EmptyString => (EmptyString, EmptyString)
  | String c rest =>
      if stop c then (EmptyString, s)
      else let '(a, b) := break_at stop rest in (String c a, b)
  end.

Fixpoint string_forallb (p : ascii -> bool) (s : string) : bool :=
  match s with
  | EmptyString => true
  | String c rest => p c && string_forallb p rest
  end.

(** The URL without its scheme and colon, when it has a scheme. *)
Definition strip_scheme (url : string) : string :=
  match break_at (fun c => Ascii.eqb c ":") url with
  | (String c0 pre, String _ rest) =>
      if is_alpha c0 && string_forallb is_scheme_char pre then rest else url
  | _ => url
  end.

(** The authority, when the URL has one, and what follows it. *)
Definition split_netloc (url : string) : option string * string :=
  match url with
  | String "/" (String "/" rest) =>
      let '(netloc, tail) :=
        break_at (fun c => Ascii.eqb c "/" || Ascii.eqb c "?" || Ascii.eqb c "#")
                 rest in
      (Some netloc, tail)
  | _ => (None, url)
  end.

Definition plain_URL_path (url : string) : string :=
  let '(netloc, rest) := split_netloc (strip_scheme url) in
  let no_fragment := fst (break_at (fun c => Ascii.eqb c "#") rest) in
  let path := fst (break_at (fun c => Ascii.eqb c "?") no_fragment) in
  match path, netloc with
  | EmptyString, Some (String _ _) => "/"
  | _, _ => path
  end.


(** ** The driver's objects *)

(** A client is either one the caller made or one that [init_beanie]
    constructs from the connection string. *)
Inductive MotorClient : Set :=
| CallerClient (id : nat)
| AsyncIOMotorClient (connection_string : string).

Record AsyncIOMotorDatabase : Set :=
  Database { db_client : MotorClient; db_name : string }.

(** What the module asks of yarl and of the driver.  Each of the three
    calls may raise: [URL(s)] on a string it cannot read, the constructor
    of the client on a connection string it rejects, the lookup of a
    database on a name it rejects.  What [URL(s).path] is, and which
    strings and names are rejected, is left to the libraries. *)
Record Libraries : Type :=
  { URL_path : string -> CallResult string;
      (* URL(s).path *)
    client_error : string -> option exn;
      (* what AsyncIOMotorClient(s) raises, if it does *)
    name_error : MotorClient -> string -> option exn
      (* what client[name] raises, if it does *) }.

(** [AsyncIOMotorClient(connection_string)] *)
Definition new_client (libs : Libraries) (connection_string : string)
  : CallResult MotorClient :=
  match client_error libs connection_string with
  | Some e => Raises e
  | None => Returns (AsyncIOMotorClient connection_string)
  end.

(** [client[name]] *)
Definition client_getitem (libs : Libraries) (client : MotorClient)
    (name : string) : CallResult AsyncIOMotorDatabase :=
  match name_error libs client name with
  | Some e => Raises e
  | None => Returns (Database client name)
  end.

(** ** Model classes *)

(** [ModelType] of beanie.odm.interfaces.detector has the members
    [Document], [View] and [UnionDoc]; [OtherType] stands for any other
    value a [get_model_type] may return, which equals none of them. *)
Inductive ModelType : Set :=
| Document
| View
| UnionDoc
| OtherType (tag : nat).

Definition ModelType_eqb (a b : ModelType) : bool :=
  match a, b with
  | Document, Document | View, View | UnionDoc, UnionDoc => true
  | OtherType m, OtherType n => Nat.eqb m n
  | _, _ => false
  end.

(** A coroutine object: the segments of its body between suspension
    points, and how the body ends ([None]: it returns). *)
Record Coroutine : Set :=
  { co_steps : list string; co_result : option exn }.

Inductive PyValue : Set :=
| PyNone
| PyCoroutine (c : Coroutine).

(** A model class.  [get_model_type] may answer differently from one
    query to the next: its argument is the number of kind queries made
    before it during the call.  [init] is called for its effect and may be
    a plain function (returning [PyNone]) or a coroutine function;
    [init_model] and [init_view] are coroutine functions. *)
Record Model : Type :=
  { model_name : string;
    get_model_type : nat -> ModelType;
    init : option AsyncIOMotorDatabase -> CallResult PyValue;
    init_model : option AsyncIOMotorDatabase -> bool -> CallResult Coroutine;
    init_view : option AsyncIOMotorDatabase -> bool -> CallResult Coroutine }.

(** An entry of [document_models]: a dotted path or a class. *)
Inductive ModelRef : Type :=
| Path (dot_path : string)
| Class (m : Model).

(** What looking a name up in a loaded module comes to: the attribute, no
    such attribute, or an exception of the module's own lookup hook. *)
Inductive Lookup : Type :=
| Found (v : Model)
| Missing
| LookupRaises (e : exn).

(** A loaded module, read through [getattr]. *)
Definition PyModule : Type := string -> Lookup.

(** [importlib.import_module] *)
Definition Importlib : Type := string -> CallResult PyModule.

Definition getattr (md : PyModule) (module_name name : string)
  : CallResult Model :=
  match md name with
  | Found v => Returns v
  | Missing =>
      Raises (Exc AttributeError
                  ("module '" ++ module_name ++ "' has no attribute '"
                   ++ name ++ "'"))
  | LookupRaises e => Raises e
  end.

(** ** get_model *)

Definition no_dot_message (dot_path : string) : string :=
  "'" ++ dot_path ++ "' doesn't have '.' path, eg. path.to.your.model.class".

Definition no_class_message (module_name class_name : option string) : string :=
  "module '" ++ fmt module_name ++ "' has no class called '"
  ++ fmt class_name ++ "'".

(** The two [except] clauses of [get_model], tried in order; an exception
    that matches neither propagates. *)
Definition get_model_handlers (dot_path : string)
    (module_name class_name : option string) (e : exn) : CallResult Model :=
  if isinstance e ValueError then
    Raises (Exc ValueError (no_dot_message dot_path))
  else if isinstance e AttributeError then
    Raises (Exc AttributeError (no_class_message module_name class_name))
  else Raises e.

Definition get_model (import_module : Importlib) (dot_path : string)
  : CallResult Model :=
  match unpack2 (rsplit1 "." dot_path) with
  | Raises e => get_model_handlers dot_path None None e
  | Returns (module_name, class_name) =>
      match cr_bind (import_module module_name)
                    (fun md => getattr md module_name class_name) with
      | Returns cls => Returns cls
      | Raises e =>
          get_model_handlers dot_path (Some module_name) (Some class_name) e
      end
  end.

(** ** What a call of init_beanie does, in order *)

(** The routine a model is initialised through, with the option it
    receives. *)
Inductive Routine : Set :=
| RInit
| RInitModel (allow_index_dropping : bool)
| RInitView (recreate_view : bool).

Inductive Event : Set :=
| EvNewClient (connection_string : string)
    (* AsyncIOMotorClient(connection_string) is called *)
| EvGetModel (dot_path : string)
    (* get_model(dot_path) is called *)
| EvCall (model : string) (r : Routine) (database : option AsyncIOMotorDatabase)
    (* a routine of the class is called, in the loop *)
| EvStep (task : nat) (step : string)
    (* the event loop runs one segment of a task of the batch *)
| EvFinish (task : nat) (res : option exn).
    (* a task of the batch ends: its body returned or raised *)

(** The state of the call: how many kind queries were made, and what
    happened so far, oldest first. *)
Record World : Set := { w_queries : nat; w_trace : list Event }.

Definition Py (A : Type) : Type := World -> CallResult A * World.

Definition ret {A : Type} (v : A) : Py A := fun w => (Returns v, w).

Definition raise {A : Type} (e : exn) : Py A := fun w => (Raises e, w).

Definition bind {A B : Type} (c : Py A) (k : A -> Py B) : Py B :=
  fun w =>
    match c w with
    | (Returns v, w') => k v w'
    | (Raises e, w') => (Raises e, w')
    end.

Notation "'do' x <- c ;; k" := (bind c (fun x => k))
  (at level 10, x name, c at level 99, k at level 200, only parsing).

Definition lift {A : Type} (r : CallResult A) : Py A := fun w => (r, w).

Definition emit (ev : Event) : Py unit :=
  fun w => (Returns tt,
            {| w_queries := w_queries w; w_trace := w_trace w ++ [ev] |}).

(** [model.get_model_type()] *)
Definition call_get_model_type (model : Model) : Py ModelType :=
  fun w => (Returns (get_model_type model (w_queries w)),
            {| w_queries := S (w_queries w); w_trace := w_trace w |}).

(** [model.init(database)]; what it returns is dropped by the caller. *)
Definition call_init (model : Model) (database : option AsyncIOMotorDatabase)
  : Py PyValue :=
  do _ <- emit (EvCall (model_name model) RInit database) ;;
  lift (init model database).

(** [model.init_model(database, allow_index_dropping=...)] *)
Definition call_init_model (model : Model)
    (database : option AsyncIOMotorDatabase) (allow_index_dropping : bool)
  : Py Coroutine :=
  do _ <- emit (EvCall (model_name model) (RInitModel allow_index_dropping)
                    database) ;;
  lift (init_model model database allow_index_dropping).

(** [model.init_view(database, recreate_view=...)] *)
Definition call_init_view (model : Model)
    (database : option AsyncIOMotorDatabase) (recreate_view : bool)
  : Py Coroutine :=
  do _ <- emit (EvCall (model_name model) (RInitView recreate_view) database) ;;
  lift (init_view model database recreate_view).

(** The first statement of the loop body: a string entry is resolved, a
    class passes through. *)
Definition resolve_entry (import_module : Importlib) (entry : ModelRef)
  : Py Model :=
  match entry with
  | Path dot_path =>
      do _ <- emit (EvGetModel dot_path) ;;
      lift (get_model import_module dot_path)
  | Class m => ret m
  end.

(** One iteration of the loop over [document_models]: three separate
    [if]s, each asking the class for its kind again. *)
Definition loop_body (import_module : Importlib)
    (database : option AsyncIOMotorDatabase)
    (allow_index_dropping recreate_views : bool)
    (collection_inits : list Coroutine) (entry : ModelRef)
  : Py (list Coroutine) :=
  do model <- resolve_entry import_module entry ;;
  do k1 <- call_get_model_type model ;;
  do _ <- (if ModelType_eqb k1 UnionDoc
        then do _ <- call_init model database ;; ret tt
        else ret tt) ;;
  do k2 <- call_get_model_type model ;;
  do collection_inits <-
    (if ModelType_eqb k2 Document
     then do c <- call_init_model model database allow_index_dropping ;;
          ret (collection_inits ++ [c])
     else ret collection_inits) ;;
  do k3 <- call_get_model_type model ;;
  (if ModelType_eqb k3 View
   then do c <- call_init_view model database recreate_views ;;
        ret (collection_inits ++ [c])
   else ret collection_inits).

(** [for x in xs: s = body(s, x)] *)
Fixpoint for_each {S A : Type} (body : S -> A -> Py S) (xs : list A) (s : S)
  : Py S :=
  match xs with
  | [] => ret s
  | x :: rest => do s' <- body s x ;; for_each body rest s'
  end.

Definition target_message : string :=
  "connection_string parameter or database parameter must be set".

Definition models_message : string :=
  "document_models parameter must be set".

Definition is_none {A : Type} (o : option A) : bool :=
  match o with
  | None => true
  | Some _ => false
  end.

(** The first [if] of [init_beanie]. *)
Definition check_target (database : option AsyncIOMotorDatabase)
    (connection_string : option string) : CallResult unit :=
  if (is_none connection_string && is_none database)
     || (negb (is_none connection_string) && negb (is_none database))
  then Raises (Exc ValueError target_message)
  else Returns tt.

(** The second [if]. *)
Definition check_models (document_models : option (list ModelRef))
  : CallResult (list ModelRef) :=
  match document_models with
  | None => Raises (Exc ValueError models_message)
  | Some models => Returns models
  end.

(** The third [if]: the database is taken from the connection string when
    only that was given.  [client or AsyncIOMotorClient(...)] keeps a
    client that was passed in, a client object being true.  The client
    comes first, then the path of the URL, then the lookup; each of the
    three may raise. *)
Definition derive_database (libs : Libraries) (client : option MotorClient)
    (database : option AsyncIOMotorDatabase)
    (connection_string : option string) : Py (option AsyncIOMotorDatabase) :=
  match connection_string, database with
  | Some cs, None =>
      do client <- match client with
                | Some c => ret c
                | None => do _ <- emit (EvNewClient cs) ;;
                          lift (new_client libs cs)
                end ;;
      do path <- lift (URL_path libs cs) ;;
      do database <- lift (client_getitem libs client (drop_first path)) ;;
      ret (Some database)
  | _, _ => ret database
  end.

(** Everything before the last line of [init_beanie]. *)
Definition collect_inits (libs : Libraries) (import_module : Importlib)
    (client : option MotorClient) (database : option AsyncIOMotorDatabase)
    (connection_string : option string)
    (document_models : option (list ModelRef))
    (allow_index_dropping recreate_views : bool) : Py (list Coroutine) :=
  do _ <- lift (check_target database connection_string) ;;
  do models <- lift (check_models document_models) ;;
  do database <- derive_database libs client database connection_string ;;
  for_each (loop_body import_module database allow_index_dropping
                      recreate_views)
           models [].

(** ** asyncio.gather on the event loop

    [asyncio.gather], called without [return_exceptions], wraps every
    coroutine in a task and hands back a future.  Each time a task ends,
    the future's callback looks at it: the first task that ends with an
    exception sets that exception on the future, and the last task to end,
    when none raised, sets the result.  The callback does nothing once the
    future is set, and it never cancels a task.

    Here the callback runs in the slice in which the task ends.  The loop
    of asyncio calls it one iteration later, so that a slice of another
    task can come in between; what is run and what the future is set to
    are the same. *)

Record Task : Set :=
  { t_coro : Coroutine; t_left : list string; t_done : bool }.

Definition create_task (c : Coroutine) : Task :=
  {| t_coro := c; t_left := co_steps c; t_done := false |}.

Inductive Future : Set :=
| Pending
| Done (r : CallResult unit).

Record Loop : Set :=
  { l_tasks : list Task; l_outer : Future; l_trace : list Event }.

Definition done_callback (res : option exn) (ts : list Task) (outer : Future)
  : Future :=
  match outer with
  | Done _ => outer
  | Pending =>
      match res with
      | Some e => Done (Raises e)
      | None => if forallb t_done ts then Done (Returns tt) else Pending
      end
  end.

(** The loop resumes task [i]: its next segment runs, or, when no segment
    is left, its body ends.  Resuming a task that has ended, or a number
    that is no task, does nothing. *)
Definition resume (i : nat) (st : Loop) : Loop :=
  match l_tasks st !! i with
  | None => st
  | Some t =>
      if t_done t then st
      else
        match t_left t with
        | s :: rest =>
            {| l_tasks :=
                 <[i := {| t_coro := t_coro t; t_left := rest;
                           t_done := false |}]> (l_tasks st);
               l_outer := l_outer st;
               l_trace := l_trace st ++ [EvStep i s] |}
        | [] =>
            let ts :=
              <[i := {| t_coro := t_coro t; t_left := [];
                        t_done := true |}]> (l_tasks st) in
            {| l_tasks := ts;
               l_outer := done_callback (co_result (t_coro t)) ts (l_outer st);
               l_trace := l_trace st ++ [EvFinish i (co_result (t_coro t))] |}
        end
  end.

Definition gather (aws : list Coroutine) : Loop :=
  {| l_tasks := map create_task aws;
     l_outer := match aws with
                | [] => Done (Returns tt)
                | _ :: _ => Pending
                end;
     l_trace := [] |}.

Definition run_loop (schedule : list nat) (st : Loop) : Loop :=
  fold_left (fun st i => resume i st) schedule st.

(** ** init_beanie *)

(** What a call comes to under a schedule of the event loop: the state of
    the call ([Pending] when the loop stopped before the awaited future
    was set), the events in order, and the tasks of the batch as the
    loop left them.  The events of a task that runs on after the future
    was set are part of the trace. *)
Record Outcome : Set :=
  { result : Future; trace : list Event; tasks : list Task }.

Definition init_world : World := {| w_queries := 0; w_trace := [] |}.

Definition init_beanie (libs : Libraries) (import_module : Importlib)
    (schedule : list nat)
    (client : option MotorClient) (database : option AsyncIOMotorDatabase)
    (connection_string : option string)
    (document_models : option (list ModelRef))
    (allow_index_dropping recreate_views : bool) : Outcome :=
  match collect_inits libs import_module client database connection_string
                      document_models allow_index_dropping recreate_views
                      init_world with
  | (Raises e, w) =>
      {| result := Done (Raises e); trace := w_trace w; tasks := [] |}
  | (Returns collection_inits, w) =>
      let st := run_loop schedule (gather collection_inits) in
      {| result := l_outer st;
         trace := w_trace w ++ l_trace st;
         tasks := l_tasks st |}
  end.

(** ** A small application to run the definitions on *)

Definition steady (k : ModelType) : nat -> ModelType := fun _ => k.

Definition coroutine_ok (steps : list string) : Coroutine :=
  {| co_steps := steps; co_result := None |}.

Definition coroutine_failing (steps : list string) (e : exn) : Coroutine :=
  {| co_steps := steps; co_result := Some e |}.

Definition unused_coroutine : CallResult Coroutine :=
  Returns (coroutine_ok []).

(** A document class. *)
Definition User : Model :=
  {| model_name := "User";
     get_model_type := steady Document;
     init := fun _ => Returns PyNone;
     init_model := fun _ _ =>
       Returns (coroutine_ok ["create collection"; "create indexes"]);
     init_view := fun _ _ => unused_coroutine |}.

(** A view class. *)
Definition Metrics : Model :=
  {| model_name := "Metrics";
     get_model_type := steady View;
     init := fun _ => Returns PyNone;
     init_model := fun _ _ => unused_coroutine;
     init_view := fun _ _ => Returns (coroutine_ok ["create view"]) |}.

(** A union root whose [init] is a plain function. *)
Definition Shape : Model :=
  {| model_name := "Shape";
     get_model_type := steady UnionDoc;
     init := fun _ => Returns PyNone;
     init_model := fun _ _ => unused_coroutine;
     init_view := fun _ _ => unused_coroutine |}.


Definition index_conflict : exn := Exc OperationFailure "index conflict".

(** A document class whose setup fails at the database. *)
Definition Broken : Model :=
  {| model_name := "Broken";
     get_model_type := steady Document;
     init := fun _ => Returns PyNone;
     init_model := fun _ _ =>
       Returns (coroutine_failing ["create collection"] index_conflict);
     init_view := fun _ _ => unused_coroutine |}.

(** A class that reports a kind outside the enumeration. *)
Definition Plugin : Model :=
  {| model_name := "Plugin";
     get_model_type := steady (OtherType 0);
     init := fun _ => Returns PyNone;
     init_model := fun _ _ => unused_coroutine;
     init_view := fun _ _ => unused_coroutine |}.

(** A class whose kind changes between two queries: a union root when
    first asked, a document afterwards. *)
Definition Fickle : Model :=
  {| model_name := "Fickle";
     get_model_type := fun n => match n with
                                | 0 => UnionDoc
                                | _ => Document
                                end;
     init := fun _ => Returns PyNone;
     init_model := fun _ _ => Returns (coroutine_ok ["create collection"]);
     init_view := fun _ _ => unused_coroutine |}.

Definition app_models : PyModule :=
  fun name =>
    if String.eqb name "User" then Found User
    else if String.eqb name "Metrics" then Found Metrics
    else if String.eqb name "Shape" then Found Shape
    else Missing.

(** [import_module] of the application: one package, the interpreter's
    [ValueError] for the empty name, and nothing else to find. *)
Definition app_import : Importlib :=
  fun module_name =>
    if String.eqb module_name "app.models" then Returns app_models
    else if String.eqb module_name "" then
      Raises (Exc ValueError "Empty module name")
    else Raises (Exc ModuleNotFoundError
                     ("No module named '" ++ module_name ++ "'")).

Definition app_db : AsyncIOMotorDatabase :=
  Database (CallerClient 0) "app".

(** The characters the driver refuses in the name of a database. *)
Definition bad_name_char (c : ascii) : bool :=
  Ascii.eqb c " " || Ascii.eqb c "." || Ascii.eqb c "$" || Ascii.eqb c "/"
  || Ascii.eqb c "\" || (nat_of_ascii c =? 0)%nat
  || (nat_of_ascii c =? 34)%nat.

(** The libraries of the examples: plain URLs, a driver that takes the
    connection strings of the two schemes it knows and the names without
    a character it refuses. *)
Definition app_libs : Libraries :=
  {| URL_path := fun s => Returns (plain_URL_path s);
     client_error := fun s =>
       if String.prefix "mongodb://" s || String.prefix "mongodb+srv://" s
       then None
       else Some (Exc InvalidURI "Invalid URI scheme");
     name_error := fun _ name =>
       match name with
       | EmptyString =>
           Some (Exc InvalidName "database name cannot be the empty string")
       | _ =>
           if string_forallb (fun c => negb (bad_name_char c)) name then None
           else Some (Exc InvalidName "database name holds a bad character")
       end |}.

(** A union root whose [init] raises. *)
Definition Locked : Model :=
  {| model_name := "Locked";
     get_model_type := steady UnionDoc;
     init := fun _ => Raises (Exc OperationFailure "not authorized");
     init_model := fun _ _ => unused_coroutine;
     init_view := fun _ _ => unused_coroutine |}.

Definition timed_out : exn := Exc OperationFailure "timed out".

(** A view class whose setup fails later than that of [Broken]. *)
Definition Slow : Model :=
  {| model_name := "Slow";
     get_model_type := steady View;
     init := fun _ => Returns PyNone;
     init_model := fun _ _ => unused_coroutine;
     init_view := fun _ _ =>
       Returns (coroutine_failing ["drop view"; "create view"] timed_out) |}.


(** A class of another kind outside the enumeration. *)
Definition Gadget : Model :=
  {| model_name := "Gadget";
     get_model_type := steady (OtherType 7);
     init := fun _ => Returns PyNone;
     init_model := fun _ _ => unused_coroutine;
     init_view := fun _ _ => unused_coroutine |}.

(** An importer with two modules that fail while they are loaded: one
    with an [AttributeError] of its own, one with a [UnicodeError]. *)
Definition legacy_import : Importlib :=
  fun module_name =>
    if String.eqb module_name "app.legacy" then
      Raises (Exc AttributeError "module 'os' has no attribute 'getuid'")
    else if String.eqb module_name "app.codec" then
      Raises (Exc UnicodeError "invalid start byte")
    else app_import module_name.

(** Every task in turn, [n] times over. *)
Fixpoint round_robin (ntasks n : nat) : list nat :=
  match n with
  | 0 => []
  | S n' => seq 0 ntasks ++ round_robin ntasks n'
  end.

(** ** Vocabulary of the statements *)

(** The events of the event loop: a task of the batch is executing. *)
Definition is_task_event (ev : Event) : bool :=
  match ev with
  | EvStep _ _ | EvFinish _ _ => true
  | _ => false
  end.

(** The events of the loop over the models: a routine is invoked. *)
Definition is_call (ev : Event) : bool :=
  match ev with
  | EvCall _ _ _ => true
  | _ => false
  end.

(** The events of task number [j]. *)
Definition of_task (j : nat) (ev : Event) : bool :=
  match ev with
  | EvStep i _ | EvFinish i _ => Nat.eqb i j
  | _ => false
  end.

(** What the derivation of the database from a connection string comes
    to, and the database the routines receive: the one passed in, or the
    one taken from the connection string ([None] when that fails). *)
Definition derived (libs : Libraries) (client : option MotorClient)
    (cs : string) : CallResult AsyncIOMotorDatabase :=
  cr_bind (match client with
           | Some c => Returns c
           | None => new_client libs cs
           end)
    (fun client =>
       cr_bind (URL_path libs cs)
         (fun path => client_getitem libs client (drop_first path))).

Definition target_database (libs : Libraries) (client : option MotorClient)
    (database : option AsyncIOMotorDatabase)
    (connection_string : option string) : option AsyncIOMotorDatabase :=
  match connection_string, database with
  | Some cs, None =>
      match derived libs client cs with
      | Returns db => Some db
      | Raises _ => None
      end
  | _, _ => database
  end.

(** The exception of the derivation, when it raises. *)
Definition derivation_error (libs : Libraries) (client : option MotorClient)
    (database : option AsyncIOMotorDatabase)
    (connection_string : option string) : option exn :=
  match connection_string, database with
  | Some cs, None =>
      match derived libs client cs with
      | Returns _ => None
      | Raises e => Some e
      end
  | _, _ => None
  end.

(** The state of the call when the loop over the models begins: no kind
    has been asked for, and a client may have been constructed. *)
Definition after_target (client : option MotorClient)
    (database : option AsyncIOMotorDatabase)
    (connection_string : option string) : World :=
  {| w_queries := 0;
     w_trace := match connection_string, database, client with
                | Some cs, None, None => [EvNewClient cs]
                | _, _, _ => []
                end |}.

(** The class an entry stands for, when it can be resolved. *)
Definition resolved (import_module : Importlib) (entry : ModelRef)
  : option Model :=
  match entry with
  | Class m => Some m
  | Path dot_path =>
      match get_model import_module dot_path with
      | Returns m => Some m
      | Raises _ => None
      end
  end.

(** A class whose [get_model_type] always gives the same answer. *)
Definition deterministic (m : Model) : Prop :=
  forall n, get_model_type m n = get_model_type m 0.

(** The one routine that goes with the kind of a class, as the event of
    its invocation; none for a kind outside the enumeration. *)
Definition expected_calls (database : option AsyncIOMotorDatabase)
    (allow_index_dropping recreate_views : bool) (m : Model) : list Event :=
  match get_model_type m 0 with
  | UnionDoc => [EvCall (model_name m) RInit database]
  | Document =>
      [EvCall (model_name m) (RInitModel allow_index_dropping) database]
  | View => [EvCall (model_name m) (RInitView recreate_views) database]
  | OtherType _ => []
  end.

(** What a class adds to the batch: the coroutine of its setup routine
    when it is a document or a view. *)
Definition contributed (database : option AsyncIOMotorDatabase)
    (allow_index_dropping recreate_views : bool) (m : Model)
  : list Coroutine :=
  match get_model_type m 0 with
  | Document =>
      match init_model m database allow_index_dropping with
      | Returns c => [c]
      | Raises _ => []
      end
  | View =>
      match init_view m database recreate_views with
      | Returns c => [c]
      | Raises _ => []
      end
  | _ => []
  end.

(** The loop gives task [j] at least as many slices as its coroutine has
    segments, plus the one in which it ends. *)
Definition enough_turns (schedule : list nat) (aws : list Coroutine) : Prop :=
  forall j c, aws !! j = Some c ->
    length (co_steps c) + 1 <= count_occ Nat.eq_dec schedule j.

(** One slice of a task on its own. *)
Definition task_step (t : Task) : Task :=
  if t_done t then t
  else match t_left t with
       | _ :: rest =>
           {| t_coro := t_coro t; t_left := rest; t_done := false |}
       | [] => {| t_coro := t_coro t; t_left := []; t_done := true |}
       end.

(** The event of that slice. *)
Definition step_event (j : nat) (t : Task) : list Event :=
  if t_done t then []
  else match t_left t with
       | s :: _ => [EvStep j s]
       | [] => [EvFinish j (co_result (t_coro t))]
       end.

(** A computation leaves the trace it finds in place and appends events
    that satisfy [P]. *)
Definition appends (P : Event -> Prop) {A : Type} (c : Py A) : Prop :=
  forall w, exists evs,
    w_trace (snd (c w)) = w_trace w ++ evs /\ Forall P evs.

(** The events of the loop are not events of tasks: nothing of a
    coroutine runs while the models are gone through. *)
Definition before_gather (ev : Event) : Prop := is_task_event ev = false.


(** The events of [n] slices of a task on its own. *)
Fixpoint slices (j n : nat) (t : Task) : list Event :=
  match n with
  | 0 => []
  | S n' => step_event j t ++ slices j n' (task_step t)
  end.


(** A routine is invoked on [database]. *)
Definition call_on (database : option AsyncIOMotorDatabase) (ev : Event)
  : Prop :=
  match ev with
  | EvCall _ _ d => d = database
  | _ => True
  end.

(** A client is constructed only when neither a client nor a database was
    passed, and then from the connection string. *)
Definition client_event (client : option MotorClient)
    (database : option AsyncIOMotorDatabase)
    (connection_string : option string) (ev : Event) : Prop :=
  match ev with
  | EvNewClient s =>
      client = None /\ database = None /\ connection_string = Some s
  | _ => True
  end.

(** A task ends with an exception. *)
Definition is_failure (ev : Event) : bool :=
  match ev with
  | EvFinish _ (Some _) => true
  | _ => false
  end.

(** A task that has ended has no segment left. *)
Definition settled (t : Task) : Prop := t_done t = true -> t_left t = [].

(** A task that has ended returned. *)
Definition returned (t : Task) : Prop :=
  t_done t = true -> co_result (t_coro t) = None.

(** What the future of the gather says about the tasks and the trace, in
    each of its states.  Pending: a task has not ended, those that have
    returned, and no task has raised.  Set to a result: every task has
    ended and returned.  Set to an exception: it is the one of the first
    task that raised. *)
Definition future_inv (st : Loop) : Prop :=
  Forall settled (l_tasks st)
  /\ match l_outer st with
     | Pending =>
         forallb t_done (l_tasks st) = false
         /\ Forall returned (l_tasks st)
         /\ Forall (fun ev => is_failure ev = false) (l_trace st)
     | Done (Returns _) =>
         Forall (fun t => t_done t = true /\ co_result (t_coro t) = None)
                (l_tasks st)
     | Done (Raises e) =>
         exists pre post j t,
           l_trace st = pre ++ EvFinish j (Some e) :: post
           /\ Forall (fun ev => is_failure ev = false) pre
           /\ l_tasks st !! j = Some t
           /\ t_done t = true
           /\ co_result (t_coro t) = Some e
     end.

(** ** The resolver *)

Section Strings.

Variable sep : ascii.

Lemma rsplit1_no_sep (s : string) :
  contains_char sep s = false -> rsplit1 sep s = [s].
Proof.
  induction s as [|c rest IH]; simpl; [reflexivity|].
  intros H. apply orb_false_iff in H as [Hc Hrest].
  rewrite (IH Hrest), Hc. reflexivity.
Qed.

(** [rsplit1] either leaves a string without separator whole, or cuts
    it at a separator that no other follows: the last one. *)
Lemma rsplit1_spec (s : string) :
  (contains_char sep s = false /\ rsplit1 sep s = [s])
  \/ (exists a b, rsplit1 sep s = [a; b]
                  /\ s = (a ++ String sep b)%string
                  /\ contains_char sep b = false).
Proof.
  induction s as [|c rest IH]; simpl.
  - left. split; reflexivity.
  - destruct IH as [[Hno Hr] | (a & b & Hr & Hs & Hb)]; rewrite Hr.
    + destruct (Ascii.eqb c sep) eqn:Ec.
      * right. exists EmptyString, rest.
        apply Ascii.eqb_eq in Ec as ->. repeat split; assumption.
      * left. rewrite Hno. split; reflexivity.
    + right. exists (String c a), b. rewrite Hs. repeat split; assumption.
Qed.

Lemma rsplit1_last (a b : string) :
  contains_char sep b = false ->
  rsplit1 sep (a ++ String sep b) = [a; b].
Proof.
  intros Hb. induction a as [|c a IH]; simpl.
  - rewrite (rsplit1_no_sep _ Hb), Ascii.eqb_refl. reflexivity.
  - rewrite IH. reflexivity.
Qed.

End Strings.

Lemma prefix_app (s t : string) : String.prefix s (s ++ t) = true.
Proof.
  induction s as [|c s IH]; simpl.
  - destruct t; reflexivity.
  - destruct (ascii_dec c c) as [_|Hc]; [exact IH | contradiction].
Qed.

Lemma is_substring_prefix (sub s : string) :
  String.prefix sub s = true -> is_substring sub s = true.
Proof. intros H. destruct s; cbn [is_substring]; rewrite H; reflexivity. Qed.

Lemma is_substring_app (sub a b : string) :
  is_substring sub (a ++ sub ++ b) = true.
Proof.
  induction a as [|c a IH]; simpl.
  - apply is_substring_prefix, prefix_app.
  - rewrite IH. apply orb_true_r.
Qed.

Lemma append_assoc (a b c : string) :
  ((a ++ b) ++ c = a ++ (b ++ c))%string.
Proof. induction a as [|x a IH]; simpl; [reflexivity | rewrite IH; reflexivity]. Qed.

Lemma no_dot_message_names (dot_path : string) :
  is_substring dot_path (no_dot_message dot_path) = true
  /\ is_substring "path.to.your.model.class" (no_dot_message dot_path) = true.
Proof.
  unfold no_dot_message. split.
  - apply is_substring_app.
  - change "' doesn't have '.' path, eg. path.to.your.model.class"
      with ("' doesn't have '.' path, eg. "
            ++ "path.to.your.model.class" ++ "")%string.
    rewrite <- (append_assoc dot_path), <- (append_assoc "'").
    apply is_substring_app.
Qed.

Lemma no_class_message_names (module_name class_name : string) :
  is_substring module_name
    (no_class_message (Some module_name) (Some class_name)) = true
  /\ is_substring class_name
       (no_class_message (Some module_name) (Some class_name)) = true.
Proof.
  unfold no_class_message, fmt. split.
  - apply is_substring_app.
  - rewrite <- (append_assoc module_name), <- (append_assoc "module '").
    apply is_substring_app.
Qed.

Lemma get_model_unpack_fails (import_module : Importlib)
    (dot_path : string) :
  contains_char "." dot_path = false ->
  get_model import_module dot_path
    = Raises (Exc ValueError (no_dot_message dot_path)).
Proof.
  intros Hno. unfold get_model. rewrite (rsplit1_no_sep _ _ Hno). reflexivity.
Qed.

(** C7.  A reference without a dot does not resolve: [get_model] raises
    the [ValueError] of its first handler (the spec's
    InvalidReferenceFormat), whatever the importer would do, and the
    message quotes the reference and shows the dotted shape
    "path.to.your.model.class". *)
Theorem get_model_without_dot (import_module : Importlib) (dot_path : string) :
  contains_char "." dot_path = false ->
  get_model import_module dot_path
    = Raises (Exc ValueError (no_dot_message dot_path))
  /\ is_substring dot_path (no_dot_message dot_path) = true
  /\ is_substring "path.to.your.model.class" (no_dot_message dot_path) = true.
Proof.
  intros Hno. split; [|apply no_dot_message_names].
  apply get_model_unpack_fails, Hno.
Qed.

Lemma get_model_without_dot_witness :
  contains_char "." "NoDotHere" = false
  /\ get_model app_import "NoDotHere"
     = Raises (Exc ValueError
         "'NoDotHere' doesn't have '.' path, eg. path.to.your.model.class").
Proof.
  split; [reflexivity|].
  apply (get_model_without_dot app_import "NoDotHere"). reflexivity.
Defined.

(** C8.  When the part before the last dot names a module that loads, and
    the module has no attribute of the name after the dot, [get_model]
    raises the [AttributeError] of its second handler (the spec's
    UnresolvedModel); the message holds both the module name and the
    missing name. *)
Theorem get_model_missing_class (import_module : Importlib)
    (module_name class_name : string) (md : PyModule) :
  contains_char "." class_name = false ->
  import_module module_name = Returns md ->
  md class_name = Missing ->
  let message := no_class_message (Some module_name) (Some class_name) in
  get_model import_module (module_name ++ "." ++ class_name)
    = Raises (Exc AttributeError message)
  /\ is_substring module_name message = true
  /\ is_substring class_name message = true.
Proof.
  intros Hcls Himp Hattr message. split; [|apply no_class_message_names].
  unfold get_model. change ("." ++ class_name)%string with (String "." class_name).
  rewrite (rsplit1_last _ _ _ Hcls). simpl.
  rewrite Himp. simpl. unfold getattr. rewrite Hattr. reflexivity.
Qed.

Lemma get_model_missing_class_witness :
  get_model app_import "app.models.Order"
  = Raises (Exc AttributeError
              "module 'app.models' has no class called 'Order'").
Proof.
  apply (get_model_missing_class app_import "app.models" "Order" app_models);
    reflexivity.
Defined.

(** C9.  A reference [ns.Cls] whose module [ns] loads and has the
    attribute [Cls] resolves to that very attribute.  The reference is cut
    at its last dot: [ns] may hold dots itself, [Cls] holds none. *)
Theorem get_model_resolves (import_module : Importlib)
    (ns cls : string) (md : PyModule) (m : Model) :
  contains_char "." cls = false ->
  import_module ns = Returns md ->
  md cls = Found m ->
  rsplit1 "." (ns ++ "." ++ cls) = [ns; cls]
  /\ get_model import_module (ns ++ "." ++ cls) = Returns m.
Proof.
  intros Hcls Himp Hattr.
  change ("." ++ cls)%string with (String "." cls).
  split; [apply rsplit1_last, Hcls|].
  unfold get_model. rewrite (rsplit1_last _ _ _ Hcls). simpl.
  rewrite Himp. simpl. unfold getattr. rewrite Hattr. reflexivity.
Qed.

Lemma get_model_resolves_witness :
  get_model app_import "app.models.User" = Returns User.
Proof.
  apply (get_model_resolves app_import "app.models" "User" app_models User);
    reflexivity.
Defined.

(** A reference that has a dot can still meet the first handler: the
    importer's own [ValueError] for an empty module name is caught by
    it. *)
Example get_model_empty_module :
  get_model app_import ".User"
  = Raises (Exc ValueError (no_dot_message ".User")).
Proof. reflexivity. Qed.

(** A module that cannot be loaded: the importer's error passes through
    both handlers. *)
Example get_model_unknown_module :
  get_model app_import "app.other.User"
  = Raises (Exc ModuleNotFoundError "No module named 'app.other'").
Proof. reflexivity. Qed.

(** ** The loop over the models *)

Section Effects.

Variable P : Event -> Prop.

Lemma appends_ret {A : Type} (v : A) : appends P (ret v).
Proof. intros w. exists []. simpl. rewrite app_nil_r. auto. Qed.

Lemma appends_lift {A : Type} (r : CallResult A) : appends P (lift r).
Proof. intros w. exists []. simpl. rewrite app_nil_r. auto. Qed.

Lemma appends_emit (ev : Event) : P ev -> appends P (emit ev).
Proof. intros H w. exists [ev]. simpl. auto. Qed.

Lemma appends_query (m : Model) : appends P (call_get_model_type m).
Proof. intros w. exists []. simpl. rewrite app_nil_r. auto. Qed.

Lemma appends_bind {A B : Type} (c : Py A) (k : A -> Py B) :
  appends P c -> (forall v, appends P (k v)) -> appends P (bind c k).
Proof.
  intros Hc Hk w. unfold bind.
  destruct (Hc w) as (evs & Ht & Hevs).
  destruct (c w) as [[v|e] w1]; simpl in Ht.
  - destruct (Hk v w1) as (evs' & Ht' & Hevs').
    exists (evs ++ evs'). rewrite Ht', Ht, app_assoc. split; [reflexivity|].
    apply Forall_app; auto.
  - exists evs. simpl. auto.
Qed.

Lemma appends_for_each {S A : Type} (body : S -> A -> Py S) (xs : list A) :
  (forall s x, appends P (body s x)) ->
  forall s, appends P (for_each body xs s).
Proof.
  intros Hbody. induction xs as [|x rest IH]; intros s; simpl.
  - apply appends_ret.
  - apply appends_bind; [apply Hbody | exact IH].
Qed.

End Effects.

Lemma appends_impl {A : Type} (P Q : Event -> Prop) (c : Py A) :
  appends P c -> (forall ev, P ev -> Q ev) -> appends Q c.
Proof.
  intros H Himp w. destruct (H w) as (evs & Ht & Hevs).
  exists evs. split; [exact Ht|]. eapply Forall_impl; [exact Hevs|exact Himp].
Qed.

Lemma appends_if {A : Type} (P : Event -> Prop) (b : bool) (c d : Py A) :
  appends P c -> appends P d -> appends P (if b then c else d).
Proof. destruct b; auto. Qed.

(** Goes through a computation built from the operations above. *)
Ltac appends_steps :=
  repeat (first [ apply appends_bind; [|intros ?]
                | apply appends_if
                | apply appends_ret | apply appends_lift
                | apply appends_query
                | apply appends_emit; reflexivity ]).

Lemma loop_body_appends import_module database aid rv cis entry :
  appends before_gather (loop_body import_module database aid rv cis entry).
Proof.
  unfold loop_body, resolve_entry, call_init, call_init_model, call_init_view.
  destruct entry; appends_steps.
Qed.


Lemma derive_database_appends libs client database connection_string :
  appends before_gather (derive_database libs client database connection_string).
Proof.
  unfold derive_database.
  destruct connection_string, database, client; appends_steps.
Qed.

Lemma collect_inits_appends libs import_module client database connection_string
    document_models aid rv :
  appends before_gather
    (collect_inits libs import_module client database connection_string
                   document_models aid rv).
Proof.
  unfold collect_inits.
  apply appends_bind; [apply appends_lift | intros _].
  apply appends_bind; [apply appends_lift | intros models].
  apply appends_bind; [apply derive_database_appends | intros db].
  apply appends_for_each. intros s x. apply loop_body_appends.
Qed.

Lemma for_each_app {S A : Type} (body : S -> A -> Py S) (xs ys : list A)
    (s : S) (w : World) :
  for_each body (xs ++ ys) s w
  = (do s' <- for_each body xs s ;; for_each body ys s') w.
Proof.
  revert s w. induction xs as [|x xs IH]; intros s w; cbn [for_each app].
  - reflexivity.
  - unfold bind. destruct (body s x w) as [[s1|e] w1].
    + rewrite IH. reflexivity.
    + reflexivity.
Qed.

(** What [derive_database] computes, and the one event it can have. *)
Lemma derive_database_eq libs client database connection_string w :
  derive_database libs client database connection_string w
  = (match derivation_error libs client database connection_string with
     | Some e => Raises e
     | None =>
         Returns (target_database libs client database connection_string)
     end,
     {| w_queries := w_queries w;
        w_trace := w_trace w ++
          match connection_string, database, client with
          | Some cs, None, None => [EvNewClient cs]
          | _, _, _ => []
          end |}).
Proof.
  destruct w as [q tr].
  unfold derive_database, derivation_error, target_database, derived,
    new_client, client_getitem.
  destruct connection_string as [cs|], database, client; simpl;
    rewrite ?app_nil_r; try reflexivity;
    unfold bind, lift, ret, emit; simpl;
    try destruct (client_error libs cs); simpl; try reflexivity;
    destruct (URL_path libs cs) as [path|]; simpl; try reflexivity;
    destruct (name_error libs _ (drop_first path)); reflexivity.
Qed.

(** The part before the gather, case by case: a check fails, the
    derivation of the database raises, or the loop is gone through. *)
Lemma collect_inits_cases libs import_module client database
    connection_string document_models aid rv :
  collect_inits libs import_module client database connection_string
                document_models aid rv init_world
  = match check_target database connection_string with
    | Raises e => (Raises e, init_world)
    | Returns _ =>
        match document_models with
        | None => (Raises (Exc ValueError models_message), init_world)
        | Some models =>
            match derivation_error libs client database
                                   connection_string with
            | Some e =>
                (Raises e, after_target client database connection_string)
            | None =>
                for_each (loop_body import_module
                            (target_database libs client database
                                             connection_string) aid rv)
                         models []
                         (after_target client database connection_string)
            end
        end
    end.
Proof.
  unfold collect_inits. unfold bind at 1 2 3. unfold lift.
  destruct (check_target database connection_string) as [[]|e];
    [|reflexivity].
  destruct document_models as [models|]; simpl check_models; cbv iota beta;
    [|reflexivity].
  rewrite derive_database_eq. unfold after_target. simpl.
  destruct (derivation_error libs client database connection_string);
    reflexivity.
Qed.

(** The event loop only adds events of tasks. *)
Lemma resume_trace (i : nat) (st : Loop) :
  exists evs, l_trace (resume i st) = l_trace st ++ evs
              /\ Forall (fun ev => is_task_event ev = true) evs.
Proof.
  unfold resume. destruct (l_tasks st !! i) as [t|].
  - destruct (t_done t).
    + exists []. rewrite app_nil_r. auto.
    + destruct (t_left t); simpl; eexists; split; try reflexivity;
        repeat constructor.
  - exists []. rewrite app_nil_r. auto.
Qed.

Lemma run_loop_trace (schedule : list nat) (st : Loop) :
  exists evs, l_trace (run_loop schedule st) = l_trace st ++ evs
              /\ Forall (fun ev => is_task_event ev = true) evs.
Proof.
  revert st. induction schedule as [|i rest IH]; intros st.
  - exists []. simpl. rewrite app_nil_r. auto.
  - change (run_loop (i :: rest) st) with (run_loop rest (resume i st)).
    destruct (resume_trace i st) as (evs & Ht & Hevs).
    destruct (IH (resume i st)) as (evs' & Ht' & Hevs').
    exists (evs ++ evs'). rewrite Ht', Ht, app_assoc.
    split; [reflexivity | apply Forall_app; auto].
Qed.

(** The trace of a call: what the part before the gather appended, then
    events of tasks. *)
Lemma init_beanie_trace libs import_module schedule client database
    connection_string document_models aid rv :
  let pre := w_trace (snd (collect_inits libs import_module client database
                             connection_string document_models aid rv
                             init_world)) in
  exists evs,
    trace (init_beanie libs import_module schedule client database
             connection_string document_models aid rv) = pre ++ evs
    /\ Forall (fun ev => is_task_event ev = true) evs.
Proof.
  unfold init_beanie.
  destruct (collect_inits _ _ _ _ _ _ _ _ init_world) as [[cis|e] w]; simpl.
  - destruct (run_loop_trace schedule (gather cis)) as (evs & Ht & Hevs).
    exists evs. rewrite Ht. auto.
  - exists []. rewrite app_nil_r. auto.
Qed.

(** The events of the part before the gather, from those of the loop
    body and the one of the client. *)
Lemma collect_inits_events (P : Event -> Prop) libs import_module client
    database connection_string document_models aid rv :
  (forall s, client = None -> database = None -> connection_string = Some s ->
             P (EvNewClient s)) ->
  (check_target database connection_string = Returns tt ->
   derivation_error libs client database connection_string = None ->
   forall cis entry,
     appends P (loop_body import_module
                  (target_database libs client database connection_string)
                  aid rv cis entry)) ->
  Forall P (w_trace (snd (collect_inits libs import_module client database
                            connection_string document_models aid rv
                            init_world))).
Proof.
  intros Hclient Hbody. rewrite collect_inits_cases.
  assert (Hat : Forall P (w_trace (after_target client database
                                     connection_string))).
  { unfold after_target.
    destruct connection_string, database, client; repeat constructor; auto. }
  destruct (check_target database connection_string) as [[]|e];
    [|constructor].
  destruct document_models as [models|]; [|constructor].
  destruct (derivation_error libs client database connection_string) eqn:Hd;
    [exact Hat|].
  destruct (appends_for_each P _ models (Hbody eq_refl eq_refl) []
              (after_target client database connection_string))
    as (evs & Ht & Hevs).
  rewrite Ht. apply Forall_app. split; assumption.
Qed.

Lemma init_beanie_events (P : Event -> Prop) libs import_module schedule
    client database connection_string document_models aid rv :
  (forall ev, is_task_event ev = true -> P ev) ->
  Forall P (w_trace (snd (collect_inits libs import_module client database
                            connection_string document_models aid rv
                            init_world))) ->
  Forall P (trace (init_beanie libs import_module schedule client database
                               connection_string document_models aid rv)).
Proof.
  intros Htask Hpre.
  destruct (init_beanie_trace libs import_module schedule client database
              connection_string document_models aid rv) as (evs & -> & Hevs).
  apply Forall_app. split; [exact Hpre|].
  eapply Forall_impl; [exact Hevs | exact Htask].
Qed.

(** ** Validation of the arguments *)

(** C3.  The target check passes exactly when one of [database] and
    [connection_string] is given.  With both, or with neither,
    [init_beanie] raises its [ValueError] (the spec's ConfigurationError)
    and nothing has happened; with one of them the check passes, and the
    call goes on to the next check. *)
Theorem exactly_one_target :
  (forall db cs,
      check_target (Some db) (Some cs) = Raises (Exc ValueError target_message))
  /\ check_target None None = Raises (Exc ValueError target_message)
  /\ (forall db, check_target (Some db) None = Returns tt)
  /\ (forall cs, check_target None (Some cs) = Returns tt)
  /\ (forall libs import_module schedule client db cs models aid rv,
        init_beanie libs import_module schedule client (Some db) (Some cs) models
                    aid rv
        = {| result := Done (Raises (Exc ValueError target_message));
             trace := []; tasks := [] |})
  /\ (forall libs import_module schedule client models aid rv,
        init_beanie libs import_module schedule client None None models aid rv
        = {| result := Done (Raises (Exc ValueError target_message));
             trace := []; tasks := [] |})
  /\ (forall libs import_module schedule client db aid rv,
        init_beanie libs import_module schedule client (Some db) None None aid rv
        = {| result := Done (Raises (Exc ValueError models_message));
             trace := []; tasks := [] |})
  /\ (forall libs import_module schedule client cs aid rv,
        init_beanie libs import_module schedule client None (Some cs) None aid rv
        = {| result := Done (Raises (Exc ValueError models_message));
             trace := []; tasks := [] |}).
Proof. repeat split. Qed.

(** C2, as the claim has it, fails: an empty model list is not rejected.
    With a database and the empty list the call returns normally. *)
Lemma empty_models_accepted :
  result (init_beanie app_libs app_import [] None (Some app_db) None (Some [])
                      false false)
  = Done (Returns tt)
  /\ forall e,
      result (init_beanie app_libs app_import [] None (Some app_db) None (Some [])
                          false false)
      <> Done (Raises e).
Proof. split; [reflexivity | intros e H; discriminate H]. Qed.

Lemma run_loop_nothing (schedule : list nat) :
  run_loop schedule (gather []) = gather [].
Proof. induction schedule as [|i rest IH]; [reflexivity | exact IH]. Qed.

(** C2, amended.  An absent model list ([document_models] is [None]) is
    what is rejected: the call raises a [ValueError] before anything is
    resolved, invoked or constructed, and the message is the one about
    [document_models] when the target is valid.  An empty list passes the
    validation.  With a database the call then returns normally, no
    reference resolved and no routine invoked; with a connection string it
    comes to what the derivation of the database comes to, returning
    normally unless the client, the URL or the lookup raises. *)
Theorem absent_models_rejected libs import_module schedule client aid rv :
  (forall database connection_string,
      exists msg,
        init_beanie libs import_module schedule client database
                    connection_string None aid rv
        = {| result := Done (Raises (Exc ValueError msg));
             trace := []; tasks := [] |})
  /\ (forall db,
        init_beanie libs import_module schedule client (Some db) None None
                    aid rv
        = {| result := Done (Raises (Exc ValueError models_message));
             trace := []; tasks := [] |})
  /\ (forall db,
        init_beanie libs import_module schedule client (Some db) None
                    (Some []) aid rv
        = {| result := Done (Returns tt); trace := []; tasks := [] |})
  /\ (forall cs,
        init_beanie libs import_module schedule client None (Some cs)
                    (Some []) aid rv
        = {| result := match derived libs client cs with
                       | Returns _ => Done (Returns tt)
                       | Raises e => Done (Raises e)
                       end;
             trace := match client with
                      | Some _ => []
                      | None => [EvNewClient cs]
                      end;
             tasks := [] |}).
Proof.
  repeat split.
  - intros [db|] [cs|]; eexists; reflexivity.
  - intros db. unfold init_beanie. rewrite collect_inits_cases. simpl.
    rewrite run_loop_nothing. reflexivity.
  - intros cs. unfold init_beanie. rewrite collect_inits_cases. simpl.
    destruct (derived libs client cs); destruct client; simpl;
      rewrite ?run_loop_nothing; reflexivity.
Qed.

(** ** The database of a connection string *)







(** ** A reference that cannot be resolved *)

(** An exception in the loop body ends the call there: the entries after
    it are not looked at and the gather is not reached. *)
Lemma loop_stops libs import_module schedule client database connection_string
    (before after : list ModelRef) (entry : ModelRef) (aid rv : bool)
    (cis : list Coroutine) (w w' : World) (e : exn) :
  collect_inits libs import_module client database connection_string
                (Some before) aid rv init_world = (Returns cis, w) ->
  loop_body import_module (target_database libs client database connection_string)
            aid rv cis entry w = (Raises e, w') ->
  init_beanie libs import_module schedule client database connection_string
              (Some (before ++ entry :: after)) aid rv
  = {| result := Done (Raises e); trace := w_trace w'; tasks := [] |}.
Proof.
  intros Hbefore Hbody. unfold init_beanie.
  rewrite collect_inits_cases in *.
  destruct (check_target database connection_string); [|discriminate].
  destruct (derivation_error libs client database connection_string);
    [discriminate|].
  rewrite for_each_app. unfold bind at 1. rewrite Hbefore.
  cbn [for_each]. unfold bind at 1. rewrite Hbody. reflexivity.
Qed.

(** C6, as the claim has it, fails: the entries are gone through in
    order, so what comes before a bad reference has already been dealt
    with when the error is raised.  Here the union root has been
    initialised and the coroutine of the document has been created. *)
Lemma bad_reference_after_inits :
  init_beanie app_libs app_import (round_robin 1 3) None (Some app_db) None
              (Some [Class Shape; Class User; Path "NoDotHere"; Class Metrics])
              false false
  = {| result := Done (Raises (Exc ValueError (no_dot_message "NoDotHere")));
       trace := [EvCall "Shape" RInit (Some app_db);
                 EvCall "User" (RInitModel false) (Some app_db);
                 EvGetModel "NoDotHere"];
       tasks := [] |}.
Proof. reflexivity. Qed.

(** C6, amended.  The error of a reference without a dot is raised when
    the loop reaches it.  What has happened by then is what the entries
    before it bring about on their own (their union roots initialised,
    the coroutines of their documents and views created) and the attempt
    to resolve the reference; no routine is invoked for the reference or
    for an entry after it, the gather is not reached, and no task of the
    batch ever runs. *)
Theorem bad_reference_stops_loop libs import_module schedule client database
    connection_string (before after : list ModelRef) (dot_path : string)
    (aid rv : bool) (cis : list Coroutine) (w : World) :
  contains_char "." dot_path = false ->
  collect_inits libs import_module client database connection_string
                (Some before) aid rv init_world = (Returns cis, w) ->
  init_beanie libs import_module schedule client database connection_string
              (Some (before ++ Path dot_path :: after)) aid rv
  = {| result := Done (Raises (Exc ValueError (no_dot_message dot_path)));
       trace := w_trace w ++ [EvGetModel dot_path];
       tasks := [] |}
  /\ Forall (fun ev => is_task_event ev = false)
            (w_trace w ++ [EvGetModel dot_path]).
Proof.
  intros Hdot Hbefore. split.
  - apply (loop_stops _ _ _ _ _ _ _ _ _ _ _ _ _
             {| w_queries := w_queries w;
                w_trace := w_trace w ++ [EvGetModel dot_path] |} _ Hbefore).
    unfold loop_body, resolve_entry. unfold bind at 1 2. unfold emit, lift.
    rewrite (get_model_unpack_fails import_module dot_path Hdot).
    reflexivity.
  - apply Forall_app. split; [|repeat constructor].
    destruct (collect_inits_appends libs import_module client database
                connection_string (Some before) aid rv init_world)
      as (evs & Ht & Hevs).
    rewrite Hbefore in Ht. simpl in Ht. rewrite Ht. exact Hevs.
Qed.

Lemma bad_reference_stops_loop_witness :
  init_beanie app_libs app_import (round_robin 1 3) None (Some app_db) None
              (Some ([Class Shape; Class User]
                     ++ Path "NoDotHere" :: [Class Metrics]))
              false false
  = {| result := Done (Raises (Exc ValueError (no_dot_message "NoDotHere")));
       trace := [EvCall "Shape" RInit (Some app_db);
                 EvCall "User" (RInitModel false) (Some app_db)]
                ++ [EvGetModel "NoDotHere"];
       tasks := [] |}.
Proof.
  apply (bad_reference_stops_loop app_libs app_import (round_robin 1 3) None
           (Some app_db) None [Class Shape; Class User] [Class Metrics]
           "NoDotHere" false false
           [coroutine_ok ["create collection"; "create indexes"]]
           {| w_queries := 6;
              w_trace := [EvCall "Shape" RInit (Some app_db);
                          EvCall "User" (RInitModel false) (Some app_db)] |});
    reflexivity.
Defined.

(** ** Union roots come first *)



(** A call that got as far as the gather went through both checks and
    through the whole loop, with the database of the target. *)
Lemma collect_inits_returns libs import_module client database
    connection_string document_models aid rv cis w :
  collect_inits libs import_module client database connection_string
                document_models aid rv init_world = (Returns cis, w) ->
  exists models w0,
    document_models = Some models
    /\ check_target database connection_string = Returns tt
    /\ Forall (fun ev => is_call ev = false) (w_trace w0)
    /\ for_each (loop_body import_module
                   (target_database libs client database connection_string)
                   aid rv) models [] w0 = (Returns cis, w).
Proof.
  rewrite collect_inits_cases.
  destruct (check_target database connection_string) as [[]|e];
    [|discriminate].
  destruct document_models as [models|]; [|discriminate].
  destruct (derivation_error libs client database connection_string);
    [discriminate|].
  intros H.
  exists models, (after_target client database connection_string).
  repeat split; [|exact H].
  unfold after_target.
  destruct connection_string, database, client; repeat constructor.
Qed.





(** ** One routine for each class *)

Lemma steady_kind (m : Model) (k : ModelType) :
  deterministic m -> get_model_type m 0 = k ->
  forall n, get_model_type m n = k.
Proof. intros Hdet Hk n. rewrite Hdet. exact Hk. Qed.

Lemma loop_body_resolves import_module database aid rv cis entry w cis' w' :
  loop_body import_module database aid rv cis entry w = (Returns cis', w') ->
  exists m, resolved import_module entry = Some m.
Proof.
  unfold loop_body, resolve_entry, bind, emit, lift, ret.
  destruct entry as [dot_path|m]; simpl.
  - destruct (get_model import_module dot_path) as [m|e]; [eauto|discriminate].
  - eauto.
Qed.

Ltac run_loop_body H Hk :=
  unfold loop_body, resolve_entry, call_init, call_init_model, call_init_view,
    call_get_model_type, bind, emit, lift, ret in H;
  simpl in H;
  repeat (rewrite Hk in H; simpl in H).

Lemma loop_body_deterministic import_module database aid rv cis entry w
    cis' w' (m : Model) :
  loop_body import_module database aid rv cis entry w = (Returns cis', w') ->
  resolved import_module entry = Some m ->
  deterministic m ->
  cis' = cis ++ contributed database aid rv m
  /\ List.filter is_call (w_trace w')
     = List.filter is_call (w_trace w) ++ expected_calls database aid rv m.
Proof.
  intros H Hres Hdet.
  unfold contributed, expected_calls.
  destruct (get_model_type m 0) eqn:Hk0;
    pose proof (steady_kind m _ Hdet Hk0) as Hk;
    destruct entry as [dot_path|m0]; simpl in Hres;
    try (destruct (get_model import_module dot_path) as [m1|e] eqn:Hget;
         [|discriminate]);
    injection Hres as ->;
    unfold loop_body, resolve_entry in H;
    try (unfold bind at 1 2 in H; unfold emit, lift in H; rewrite Hget in H);
    try (unfold bind at 1 in H; unfold ret at 1 in H);
    run_loop_body H Hk;
    try (destruct (init_model m database aid); [|discriminate]);
    try (destruct (init_view m database rv); [|discriminate]);
    try (destruct (init m database); [|discriminate]);
    repeat (rewrite Hk in H; simpl in H);
    injection H as <- <-; simpl;
    rewrite ?List.filter_app, ?app_nil_r; simpl;
    rewrite ?app_nil_r; auto.
Qed.

Lemma for_each_deterministic import_module database aid rv
    (models : list ModelRef) :
  (forall entry m, In entry models ->
                   resolved import_module entry = Some m -> deterministic m) ->
  forall cis w cis' w',
    for_each (loop_body import_module database aid rv) models cis w
    = (Returns cis', w') ->
    exists ms,
      Forall2 (fun entry m => resolved import_module entry = Some m) models ms
      /\ cis' = cis ++ flat_map (contributed database aid rv) ms
      /\ List.filter is_call (w_trace w')
         = List.filter is_call (w_trace w)
           ++ flat_map (expected_calls database aid rv) ms.
Proof.
  induction models as [|x rest IH]; intros Hdet cis w cis' w' H.
  - injection H as <- <-. exists []. simpl. rewrite !app_nil_r. auto.
  - cbn [for_each] in H. unfold bind in H.
    destruct (loop_body import_module database aid rv cis x w)
      as [[cis1|e] w1] eqn:Hbody; [|discriminate].
    destruct (loop_body_resolves _ _ _ _ _ _ _ _ _ Hbody) as [m Hres].
    destruct (loop_body_deterministic _ _ _ _ _ _ _ _ _ m Hbody Hres)
      as [Hcis Htr]; [eapply Hdet; [left; reflexivity | exact Hres]|].
    destruct (IH (fun entry m' Hin => Hdet entry m' (or_intror Hin))
                 _ _ _ _ H) as (ms & Hall & Hcis' & Htr').
    exists (m :: ms). split; [constructor; assumption|].
    simpl. rewrite Hcis', Hcis, Htr', Htr, <- !app_assoc. auto.
Qed.

Lemma map_insert_same {A B : Type} (f : A -> B) (l : list A) (i : nat)
    (x y : A) :
  l !! i = Some x -> f y = f x -> map f (<[i := y]> l) = map f l.
Proof.
  revert i. induction l as [|a l IH]; intros [|i] Hl Hf; simpl in *;
    try discriminate.
  - injection Hl as ->. rewrite Hf. reflexivity.
  - rewrite (IH i Hl Hf). reflexivity.
Qed.

(** The loop never swaps the coroutine of a task. *)
Lemma resume_coros (i : nat) (st : Loop) :
  map t_coro (l_tasks (resume i st)) = map t_coro (l_tasks st).
Proof.
  unfold resume. destruct (l_tasks st !! i) as [t|] eqn:Ht; [|reflexivity].
  destruct (t_done t); [reflexivity|].
  destruct (t_left t); simpl; eapply map_insert_same; eauto.
Qed.

Lemma run_loop_coros (schedule : list nat) (st : Loop) :
  map t_coro (l_tasks (run_loop schedule st)) = map t_coro (l_tasks st).
Proof.
  revert st. induction schedule as [|i rest IH]; intros st; [reflexivity|].
  change (run_loop (i :: rest) st) with (run_loop rest (resume i st)).
  rewrite IH. apply resume_coros.
Qed.

Lemma gather_coros (aws : list Coroutine) :
  map t_coro (l_tasks (gather aws)) = aws.
Proof.
  simpl. induction aws as [|c aws IH]; simpl; [|rewrite IH]; reflexivity.
Qed.

Lemma filter_is_call_none (evs : list Event) :
  Forall (fun ev => is_call ev = false) evs -> List.filter is_call evs = [].
Proof.
  induction 1 as [|ev evs Hev _ IH]; simpl; [reflexivity|].
  rewrite Hev. exact IH.
Qed.

(** A class of a kind outside the enumeration is passed over: the three
    tests fail, nothing is invoked, nothing is raised and the batch is as
    it was. *)
Lemma loop_body_other_kind import_module database aid rv cis entry w
    (m : Model) (tag : nat) :
  resolved import_module entry = Some m ->
  deterministic m ->
  get_model_type m 0 = OtherType tag ->
  loop_body import_module database aid rv cis entry w
  = (Returns cis,
     {| w_queries := 3 + w_queries w;
        w_trace := w_trace w ++ match entry with
                                | Path dot_path => [EvGetModel dot_path]
                                | Class _ => []
                                end |}).
Proof.
  intros Hres Hdet Hk0. pose proof (steady_kind m _ Hdet Hk0) as Hk.
  destruct w as [q tr].
  destruct entry as [dot_path|m0]; simpl in Hres.
  - destruct (get_model import_module dot_path) as [m1|e] eqn:Hget;
      [|discriminate].
    injection Hres as ->.
    unfold loop_body, resolve_entry. unfold bind at 1 2. unfold emit, lift.
    rewrite Hget.
    unfold call_get_model_type, bind, ret. simpl.
    repeat (rewrite Hk; simpl). reflexivity.
  - injection Hres as ->.
    unfold loop_body, resolve_entry, call_get_model_type, bind, ret. simpl.
    repeat (rewrite Hk; simpl). rewrite app_nil_r. reflexivity.
Qed.

(** C10.  When every class answers [get_model_type] the same way each
    time: in a successful call the routines invoked are, in the order of
    the model list, one for each class of the three kinds, [init] for a
    union root, [init_model] with [allow_index_dropping] for a document,
    [init_view] with [recreate_views] for a view, all on the database of
    the target, and the batch that is gathered holds the coroutines of
    the documents and views and nothing else.  A class of another kind,
    wherever it stands in the list, is passed over: when the loop has
    come to it, it goes past it with no routine invoked, no exception
    raised and the batch unchanged. *)
Theorem one_routine_per_model libs import_module schedule client database
    connection_string (models : list ModelRef) (aid rv : bool) :
  let o := init_beanie libs import_module schedule client database
                       connection_string (Some models) aid rv in
  let db := target_database libs client database connection_string in
  (forall entry m, In entry models ->
                   resolved import_module entry = Some m -> deterministic m) ->
  (result o = Done (Returns tt) ->
   exists ms,
     Forall2 (fun entry m => resolved import_module entry = Some m) models ms
     /\ List.filter is_call (trace o) = flat_map (expected_calls db aid rv) ms
     /\ map t_coro (tasks o) = flat_map (contributed db aid rv) ms)
  /\ (forall before entry after m tag cis w,
        models = before ++ entry :: after ->
        resolved import_module entry = Some m ->
        get_model_type m 0 = OtherType tag ->
        collect_inits libs import_module client database connection_string
                      (Some before) aid rv init_world = (Returns cis, w) ->
        collect_inits libs import_module client database connection_string
                      (Some (before ++ [entry])) aid rv init_world
        = (Returns cis,
           {| w_queries := 3 + w_queries w;
              w_trace := w_trace w ++ match entry with
                                      | Path dot_path => [EvGetModel dot_path]
                                      | Class _ => []
                                      end |})).
Proof.
  intros o db Hdet. split.
  - intros Hok. unfold o, init_beanie in *.
    destruct (collect_inits libs import_module client database
                connection_string (Some models) aid rv init_world)
      as [[cis|e] w] eqn:Hc; [|discriminate].
    destruct (collect_inits_returns _ _ _ _ _ _ _ _ _ _ Hc)
      as (models' & w0 & Hm & _ & Hw0 & Hfor).
    injection Hm as <-.
    destruct (for_each_deterministic _ _ _ _ _ Hdet _ _ _ _ Hfor)
      as (ms & Hall & Hcis & Htr).
    exists ms. split; [exact Hall|]. simpl. split.
    + destruct (run_loop_trace schedule (gather cis)) as (evs & Hevs & Htask).
      simpl in Hevs. rewrite Hevs, List.filter_app, Htr.
      rewrite (filter_is_call_none _ Hw0). simpl.
      rewrite (filter_is_call_none evs), app_nil_r; [reflexivity|].
      eapply Forall_impl; [exact Htask|].
      intros [] H; try discriminate H; reflexivity.
    + rewrite run_loop_coros, gather_coros. exact Hcis.
  - intros before entry after m tag cis w Hmodels Hres Hkind Hbefore.
    assert (Hm : deterministic m).
    { apply (Hdet entry m); [|exact Hres].
      rewrite Hmodels. apply in_or_app. right. left. reflexivity. }
    rewrite collect_inits_cases in *.
    destruct (check_target database connection_string); [|discriminate].
    destruct (derivation_error libs client database connection_string);
      [discriminate|].
    rewrite for_each_app. unfold bind at 1. rewrite Hbefore.
    cbn [for_each]. unfold bind at 1.
    rewrite (loop_body_other_kind _ _ _ _ _ _ _ m tag Hres Hm Hkind).
    reflexivity.
Qed.

Lemma one_routine_per_model_witness :
  let o := init_beanie app_libs app_import (round_robin 2 3) None
             (Some app_db) None
             (Some [Class Shape; Class Gadget; Path "app.models.User";
                    Class Metrics]) false true in
  (List.filter is_call (trace o)
   = [EvCall "Shape" RInit (Some app_db);
      EvCall "User" (RInitModel false) (Some app_db);
      EvCall "Metrics" (RInitView true) (Some app_db)]
   /\ map t_coro (tasks o)
      = [coroutine_ok ["create collection"; "create indexes"];
         coroutine_ok ["create view"]])
  /\ collect_inits app_libs app_import None (Some app_db) None
                   (Some ([Class Shape] ++ [Class Gadget])) false true
                   init_world
     = (Returns [],
        {| w_queries := 3 + 3;
           w_trace := [EvCall "Shape" RInit (Some app_db)] ++ [] |}).
Proof.
  intros o.
  destruct (one_routine_per_model app_libs app_import (round_robin 2 3) None
              (Some app_db) None
              [Class Shape; Class Gadget; Path "app.models.User";
               Class Metrics] false true)
    as [Hcalled Hskip].
  - intros entry m [<-|[<-|[<-|[<-|[]]]]] Hres;
      injection Hres as <-; intros n; reflexivity.
  - split.
    + destruct (Hcalled eq_refl) as (ms & Hall & Hcalls & Hbatch).
      fold o in Hcalls, Hbatch.
      repeat match goal with
             | H : Forall2 _ _ _ |- _ => inversion H; subst; clear H
             end.
      repeat match goal with
             | H : resolved _ _ = Some _ |- _ => injection H as <-
             end.
      split; [exact Hcalls | exact Hbatch].
    + apply (Hskip [Class Shape] (Class Gadget)
                   [Path "app.models.User"; Class Metrics] Gadget 7 []
                   {| w_queries := 3;
                      w_trace := [EvCall "Shape" RInit (Some app_db)] |});
        reflexivity.
Defined.

(** Without the assumption the count is off: a class that is a union
    root when first asked and a document afterwards has two routines
    invoked. *)
Example fickle_class_two_routines :
  List.filter is_call
    (trace (init_beanie app_libs app_import (round_robin 1 2) None (Some app_db) None
                        (Some [Class Fickle]) false false))
  = [EvCall "Fickle" RInit (Some app_db);
     EvCall "Fickle" (RInitModel false) (Some app_db)].
Proof. reflexivity. Qed.

(** ** The gathered batch *)

Lemma resume_tasks (i : nat) (st : Loop) :
  l_tasks (resume i st)
  = match l_tasks st !! i with
    | Some t => <[i := task_step t]> (l_tasks st)
    | None => l_tasks st
    end.
Proof.
  unfold resume, task_step. destruct (l_tasks st !! i) as [t|] eqn:Ht;
    [|reflexivity].
  destruct (t_done t).
  - symmetry. apply list_insert_id. exact Ht.
  - destruct (t_left t); reflexivity.
Qed.

Lemma resume_lookup (i j : nat) (st : Loop) :
  l_tasks (resume i st) !! j
  = if Nat.eq_dec i j then task_step <$> (l_tasks st !! j)
    else l_tasks st !! j.
Proof.
  rewrite resume_tasks. destruct (Nat.eq_dec i j) as [<-|Hne].
  - destruct (l_tasks st !! i) as [t|] eqn:Ht; simpl.
    + apply list_lookup_insert_eq. eapply lookup_lt_Some; eauto.
    + exact Ht.
  - destruct (l_tasks st !! i) as [t|]; [|reflexivity].
    apply list_lookup_insert_ne. exact Hne.
Qed.

Lemma iter_task_step_lookup (n : nat) (o : option Task) :
  Nat.iter n task_step <$> (task_step <$> o) = Nat.iter (S n) task_step <$> o.
Proof.
  destruct o as [t|]; simpl; [|reflexivity].
  f_equal. symmetry. apply (Nat.iter_succ_r n task_step t).
Qed.

(** After a schedule, a task has had as many slices as the schedule
    names it: the other tasks, and how they ended, change nothing. *)
Lemma run_loop_lookup (schedule : list nat) (j : nat) (st : Loop) :
  l_tasks (run_loop schedule st) !! j
  = Nat.iter (count_occ Nat.eq_dec schedule j) task_step
      <$> (l_tasks st !! j).
Proof.
  revert st. induction schedule as [|i rest IH]; intros st.
  - simpl. destruct (l_tasks st !! j); reflexivity.
  - change (run_loop (i :: rest) st) with (run_loop rest (resume i st)).
    rewrite IH, resume_lookup. cbn [count_occ].
    destruct (Nat.eq_dec i j); [apply iter_task_step_lookup | reflexivity].
Qed.

Lemma iter_task_step_done (n : nat) (t : Task) :
  t_done t = true -> Nat.iter n task_step t = t.
Proof.
  intros Hd. induction n as [|n IH]; simpl; [reflexivity|].
  rewrite IH. unfold task_step. rewrite Hd. reflexivity.
Qed.

Lemma iter_task_step_finishes (c : Coroutine) (left : list string) (n : nat) :
  length left + 1 <= n ->
  Nat.iter n task_step {| t_coro := c; t_left := left; t_done := false |}
  = {| t_coro := c; t_left := []; t_done := true |}.
Proof.
  revert n. induction left as [|s rest IH]; intros [|n] Hn; simpl in Hn;
    try lia; rewrite Nat.iter_succ_r.
  - unfold task_step at 2. simpl. apply iter_task_step_done. reflexivity.
  - unfold task_step at 2. simpl. apply IH. lia.
Qed.

Lemma slices_done (j n : nat) (t : Task) :
  t_done t = true -> slices j n t = [].
Proof.
  intros Hd. induction n as [|n IH]; simpl; [reflexivity|].
  unfold step_event, task_step. rewrite Hd. exact IH.
Qed.

Lemma slices_finishes (j : nat) (c : Coroutine) (left : list string)
    (n : nat) :
  length left + 1 <= n ->
  slices j n {| t_coro := c; t_left := left; t_done := false |}
  = map (EvStep j) left ++ [EvFinish j (co_result c)].
Proof.
  revert n. induction left as [|s rest IH]; intros [|n] Hn; simpl in Hn;
    try lia; simpl.
  - unfold task_step. simpl. rewrite slices_done; reflexivity.
  - unfold task_step. simpl. rewrite IH by lia. reflexivity.
Qed.


Lemma resume_events (i j : nat) (st : Loop) :
  List.filter (of_task j) (l_trace (resume i st))
  = List.filter (of_task j) (l_trace st)
    ++ (if Nat.eq_dec i j
        then match l_tasks st !! j with
             | Some t => step_event j t
             | None => []
             end
        else []).
Proof.
  unfold resume, step_event.
  destruct (Nat.eq_dec i j) as [<-|Hne].
  - destruct (l_tasks st !! i) as [t|]; [|rewrite app_nil_r; reflexivity].
    destruct (t_done t); [rewrite app_nil_r; reflexivity|].
    destruct (t_left t); simpl; rewrite List.filter_app; simpl;
      rewrite Nat.eqb_refl; reflexivity.
  - apply Nat.eqb_neq in Hne.
    destruct (l_tasks st !! i) as [t|]; [|rewrite app_nil_r; reflexivity].
    destruct (t_done t); [rewrite app_nil_r; reflexivity|].
    destruct (t_left t); simpl; rewrite List.filter_app; simpl;
      rewrite Hne; reflexivity.
Qed.

(** The events of a task in the trace are those of its own slices. *)
Lemma run_loop_events (schedule : list nat) (j : nat) (st : Loop) :
  List.filter (of_task j) (l_trace (run_loop schedule st))
  = List.filter (of_task j) (l_trace st)
    ++ match l_tasks st !! j with
       | Some t => slices j (count_occ Nat.eq_dec schedule j) t
       | None => []
       end.
Proof.
  revert st. induction schedule as [|i rest IH]; intros st.
  - simpl. destruct (l_tasks st !! j); rewrite app_nil_r; reflexivity.
  - change (run_loop (i :: rest) st) with (run_loop rest (resume i st)).
    rewrite IH, resume_events, resume_lookup. cbn [count_occ].
    destruct (Nat.eq_dec i j) as [<-|Hne].
    + destruct (l_tasks st !! i) as [t|]; simpl.
      * rewrite <- app_assoc. reflexivity.
      * rewrite !app_nil_r. reflexivity.
    + rewrite app_nil_r. reflexivity.
Qed.

Lemma forallb_done_false (ts : list Task) (i : nat) (t : Task) :
  ts !! i = Some t -> t_done t = false -> forallb t_done ts = false.
Proof.
  revert i. induction ts as [|a ts IH]; intros [|i] Hl Hd; simpl in *;
    try discriminate.
  - injection Hl as ->. rewrite Hd. reflexivity.
  - rewrite (IH i Hl Hd). apply andb_false_r.
Qed.

Lemma coro_of_task (aws : list Coroutine) (ts : list Task) (k : nat)
    (t : Task) :
  map t_coro ts = aws -> ts !! k = Some t -> aws !! k = Some (t_coro t).
Proof.
  intros <- Hk. change (map t_coro ts) with (t_coro <$> ts).
  rewrite list_lookup_fmap, Hk. reflexivity.
Qed.

Lemma gather_lookup (aws : list Coroutine) (j : nat) :
  l_tasks (gather aws) !! j = create_task <$> (aws !! j).
Proof.
  simpl. change (map create_task aws) with (create_task <$> aws).
  apply list_lookup_fmap.
Qed.


Lemma no_task_events_before_gather (j : nat) (evs : list Event) :
  Forall before_gather evs -> List.filter (of_task j) evs = [].
Proof.
  induction 1 as [|ev evs Hev _ IH]; simpl; [reflexivity|].
  destruct ev; try discriminate Hev; exact IH.
Qed.

Section OneFailure.

(** A batch in which the task [i] ends with the exception [e] and every
    other task returns. *)
Variables (aws : list Coroutine) (i : nat) (c : Coroutine) (e : exn).
Hypothesis failing : aws !! i = Some c.
Hypothesis raises_e : co_result c = Some e.
Hypothesis others_return :
  forall j c', aws !! j = Some c' -> j <> i -> co_result c' = None.




(** Each task of the batch that is given its turns ends, with all its
    segments run, whatever the other tasks do. *)
Lemma gathered_task_completes (schedule : list nat) (j : nat)
    (c' : Coroutine) :
  aws !! j = Some c' ->
  length (co_steps c') + 1 <= count_occ Nat.eq_dec schedule j ->
  let st := run_loop schedule (gather aws) in
  l_tasks st !! j = Some {| t_coro := c'; t_left := []; t_done := true |}
  /\ List.filter (of_task j) (l_trace st)
     = map (EvStep j) (co_steps c') ++ [EvFinish j (co_result c')].
Proof.
  intros Hj Hn st. unfold st. split.
  - rewrite run_loop_lookup, gather_lookup, Hj. simpl. f_equal.
    apply iter_task_step_finishes, Hn.
  - rewrite run_loop_events, gather_lookup, Hj. simpl.
    apply slices_finishes, Hn.
Qed.


End OneFailure.




(** ** More about the resolver *)

Lemma get_model_handlers_raise dot_path module_name class_name e :
  exists e', get_model_handlers dot_path module_name class_name e = Raises e'.
Proof.
  unfold get_model_handlers.
  destruct (isinstance e ValueError); [eauto|].
  destruct (isinstance e AttributeError); eauto.
Qed.

(** X1.  What [get_model] returns is an attribute of a module it loaded:
    the reference is the name of that module, a dot, and the name of the
    attribute, which holds no dot. *)
Theorem get_model_returns_attribute (import_module : Importlib)
    (dot_path : string) (m : Model) :
  get_model import_module dot_path = Returns m ->
  exists module_name class_name md,
    dot_path = (module_name ++ "." ++ class_name)%string
    /\ contains_char "." class_name = false
    /\ import_module module_name = Returns md
    /\ md class_name = Found m.
Proof.
  unfold get_model.
  destruct (rsplit1_spec "." dot_path)
    as [[_ Hr] | (a & b & Hr & Hs & Hb)]; rewrite Hr; simpl.
  - discriminate.
  - intros H. exists a, b.
    destruct (import_module a) as [md|e] eqn:Himp; simpl in H.
    + exists md. unfold getattr in H.
      destruct (md b) as [v| |e] eqn:Hattr; simpl in H.
      * injection H as ->. auto.
      * discriminate.
      * destruct (get_model_handlers_raise dot_path (Some a) (Some b) e)
          as [e' He']. rewrite He' in H. discriminate.
    + destruct (get_model_handlers_raise dot_path (Some a) (Some b) e)
        as [e' He']. rewrite He' in H. discriminate.
Qed.

Lemma get_model_returns_attribute_witness :
  exists module_name class_name md,
    "app.models.Metrics" = (module_name ++ "." ++ class_name)%string
    /\ contains_char "." class_name = false
    /\ app_import module_name = Returns md
    /\ md class_name = Found Metrics.
Proof.
  apply (get_model_returns_attribute app_import "app.models.Metrics" Metrics).
  reflexivity.
Defined.

(** X2.  An error of the importer that is neither a [ValueError] nor an
    [AttributeError] comes out of [get_model] as it is. *)
Theorem get_model_load_error_unchanged (import_module : Importlib)
    (module_name class_name : string) (e : exn) :
  contains_char "." class_name = false ->
  import_module module_name = Raises e ->
  isinstance e ValueError = false ->
  isinstance e AttributeError = false ->
  get_model import_module (module_name ++ "." ++ class_name) = Raises e.
Proof.
  intros Hcls Himp Hv Ha. unfold get_model.
  change ("." ++ class_name)%string with (String "." class_name).
  rewrite (rsplit1_last _ _ _ Hcls). simpl. rewrite Himp. simpl.
  unfold get_model_handlers. rewrite Hv, Ha. reflexivity.
Qed.

Lemma get_model_load_error_unchanged_witness :
  get_model app_import "app.other.User"
  = Raises (Exc ModuleNotFoundError "No module named 'app.other'").
Proof.
  apply (get_model_load_error_unchanged app_import "app.other" "User");
    reflexivity.
Defined.

(** X3.  A [ValueError] raised while the module is loaded, or an
    exception of a subclass of it, is caught by the first handler: the
    reference is reported as having no dot although it has one, and the
    error of the module is lost. *)
Theorem get_model_hides_value_error (import_module : Importlib)
    (module_name class_name : string) (e : exn) :
  contains_char "." class_name = false ->
  import_module module_name = Raises e ->
  isinstance e ValueError = true ->
  get_model import_module (module_name ++ "." ++ class_name)
  = Raises (Exc ValueError
              (no_dot_message (module_name ++ "." ++ class_name))).
Proof.
  intros Hcls Himp Hv. unfold get_model.
  change ("." ++ class_name)%string with (String "." class_name).
  rewrite (rsplit1_last _ _ _ Hcls). simpl. rewrite Himp. simpl.
  unfold get_model_handlers. rewrite Hv. reflexivity.
Qed.

Lemma get_model_hides_value_error_witness :
  get_model legacy_import "app.codec.Frame"
  = Raises (Exc ValueError
      "'app.codec.Frame' doesn't have '.' path, eg. path.to.your.model.class").
Proof.
  apply (get_model_hides_value_error legacy_import "app.codec" "Frame"
           (Exc UnicodeError "invalid start byte"));
    reflexivity.
Defined.



(** X5.  The exceptions of [get_model] are of three shapes and no other:
    the [ValueError] with the message about the missing dot, the
    [AttributeError] with the message about the missing class, built from
    the two parts of the reference, or an exception that is neither of
    the two kinds, raised by the import of the module or by the lookup of
    the name in it, and passed on as it is.  No [ValueError] or
    [AttributeError] leaves it with a message of its own. *)
Theorem get_model_error_shapes (import_module : Importlib)
    (dot_path : string) (e : exn) :
  get_model import_module dot_path = Raises e ->
  e = Exc ValueError (no_dot_message dot_path)
  \/ (exists module_name class_name,
        dot_path = (module_name ++ "." ++ class_name)%string
        /\ contains_char "." class_name = false
        /\ e = Exc AttributeError
                 (no_class_message (Some module_name) (Some class_name)))
  \/ (exists module_name class_name,
        dot_path = (module_name ++ "." ++ class_name)%string
        /\ contains_char "." class_name = false
        /\ (import_module module_name = Raises e
            \/ exists md, import_module module_name = Returns md
                          /\ md class_name = LookupRaises e)
        /\ isinstance e ValueError = false
        /\ isinstance e AttributeError = false).
Proof.
  unfold get_model.
  destruct (rsplit1_spec "." dot_path)
    as [[_ Hr] | (a & b & Hr & Hs & Hb)]; rewrite Hr; simpl.
  - intros H. injection H as <-. left. reflexivity.
  - assert (Hh : forall e0,
               (import_module a = Raises e0
                \/ exists md, import_module a = Returns md
                              /\ md b = LookupRaises e0) ->
               get_model_handlers dot_path (Some a) (Some b) e0 = Raises e ->
               e = Exc ValueError (no_dot_message dot_path)
               \/ (exists module_name class_name,
                     dot_path = (module_name ++ "." ++ class_name)%string
                     /\ contains_char "." class_name = false
                     /\ e = Exc AttributeError
                              (no_class_message (Some module_name)
                                                (Some class_name)))
               \/ (exists module_name class_name,
                     dot_path = (module_name ++ "." ++ class_name)%string
                     /\ contains_char "." class_name = false
                     /\ (import_module module_name = Raises e
                         \/ exists md,
                             import_module module_name = Returns md
                             /\ md class_name = LookupRaises e)
                     /\ isinstance e ValueError = false
                     /\ isinstance e AttributeError = false)).
    { intros e0 Hfrom. unfold get_model_handlers.
      destruct (isinstance e0 ValueError) eqn:Hv.
      - intros H. injection H as <-. left. reflexivity.
      - destruct (isinstance e0 AttributeError) eqn:Ha.
        + intros H. injection H as <-. right. left. exists a, b. auto.
        + intros H. injection H as <-. right. right. exists a, b. auto. }
    destruct (import_module a) as [md|e0] eqn:Himp; simpl.
    + unfold getattr. destruct (md b) as [v| |e0] eqn:Hattr; simpl.
      * discriminate.
      * intros H. injection H as <-. right. left. exists a, b. auto.
      * apply Hh. right. exists md. auto.
    + apply Hh. left. reflexivity.
Qed.

Lemma get_model_error_shapes_witness :
  Exc AttributeError "module 'app.models' has no class called 'Order'"
  = Exc ValueError (no_dot_message "app.models.Order")
  \/ (exists module_name class_name,
        "app.models.Order" = (module_name ++ "." ++ class_name)%string
        /\ contains_char "." class_name = false
        /\ Exc AttributeError "module 'app.models' has no class called 'Order'"
           = Exc AttributeError
               (no_class_message (Some module_name) (Some class_name)))
  \/ (exists module_name class_name,
        "app.models.Order" = (module_name ++ "." ++ class_name)%string
        /\ contains_char "." class_name = false
        /\ (app_import module_name
            = Raises (Exc AttributeError
                        "module 'app.models' has no class called 'Order'")
            \/ exists md,
                app_import module_name = Returns md
                /\ md class_name
                   = LookupRaises
                       (Exc AttributeError
                          "module 'app.models' has no class called 'Order'"))
        /\ isinstance (Exc AttributeError
                         "module 'app.models' has no class called 'Order'")
                      ValueError = false
        /\ isinstance (Exc AttributeError
                         "module 'app.models' has no class called 'Order'")
                      AttributeError = false).
Proof.
  apply (get_model_error_shapes app_import "app.models.Order"). reflexivity.
Defined.

(** ** More about the loop over the models *)

Lemma loop_body_call_on import_module database aid rv cis entry :
  appends (call_on database)
          (loop_body import_module database aid rv cis entry).
Proof.
  unfold loop_body, resolve_entry, call_init, call_init_model, call_init_view.
  destruct entry; appends_steps.
Qed.

Lemma loop_body_client_event client database cs import_module db aid rv cis
    entry :
  appends (client_event client database cs)
          (loop_body import_module db aid rv cis entry).
Proof.
  unfold loop_body, resolve_entry, call_init, call_init_model, call_init_view.
  destruct entry; appends_steps.
Qed.

(** X6.  A client is constructed only when the call has a connection
    string and neither a database nor a client, and then from that
    string.  When a database is passed, the client argument plays no part:
    the call comes to the same with any other client. *)
Theorem client_constructed_only_when_needed libs import_module schedule client
    database connection_string document_models aid rv :
  Forall (client_event client database connection_string)
         (trace (init_beanie libs import_module schedule client database
                             connection_string document_models aid rv))
  /\ forall db client',
       init_beanie libs import_module schedule client (Some db) None
                   document_models aid rv
       = init_beanie libs import_module schedule client' (Some db) None
                     document_models aid rv.
Proof.
  split; [|reflexivity].
  apply init_beanie_events.
  - intros [] H; try discriminate H; exact I.
  - apply collect_inits_events.
    + intros s -> -> ->. repeat split.
    + intros _ _ cis entry. apply loop_body_client_event.
Qed.

(** X7.  Every routine invoked during a call is invoked on the database
    of the target, and none is ever invoked on [None]: the checks come
    before the loop. *)
Theorem routines_receive_target libs import_module schedule client database
    connection_string document_models aid rv :
  let o := init_beanie libs import_module schedule client database
                       connection_string document_models aid rv in
  Forall (call_on (target_database libs client database connection_string))
         (trace o)
  /\ forall name r, ~ In (EvCall name r None) (trace o).
Proof.
  intros o.
  assert (Hall : Forall (call_on (target_database libs client database
                                    connection_string)) (trace o)).
  { apply init_beanie_events.
    - intros [] H; try discriminate H; exact I.
    - apply collect_inits_events.
      + intros; exact I.
      + intros _ _ cis entry. apply loop_body_call_on. }
  split; [exact Hall|].
  assert (Hsome : Forall (fun ev => match ev with
                                    | EvCall _ _ None => False
                                    | _ => True
                                    end) (trace o)).
  { apply init_beanie_events.
    - intros [] H; try discriminate H; exact I.
    - apply collect_inits_events.
      + intros; exact I.
      + intros Hcheck Hnone cis entry.
        eapply appends_impl; [apply loop_body_call_on|].
        intros [] Hev; try exact I. simpl in Hev. subst.
        unfold check_target in Hcheck.
        unfold derivation_error in Hnone. unfold target_database.
        destruct connection_string as [cs|], database as [db|];
          simpl in *; try discriminate Hcheck; try exact I.
        destruct (derived libs client cs); [exact I | discriminate]. }
  intros name r Hin.
  rewrite Forall_forall in Hsome. rewrite <- list_elem_of_In in Hin.
  exact (Hsome _ Hin).
Qed.

(** X8.  A reference that [get_model] cannot resolve, for whatever
    reason, ends the call with the exception of [get_model].  The entries
    before it have been dealt with; nothing is invoked for it or for an
    entry after it, and the coroutines created so far are never run. *)
Theorem unresolved_reference_stops_loop libs import_module schedule client
    database connection_string (before after : list ModelRef)
    (dot_path : string) (aid rv : bool) (cis : list Coroutine) (w : World)
    (e : exn) :
  get_model import_module dot_path = Raises e ->
  collect_inits libs import_module client database connection_string
                (Some before) aid rv init_world = (Returns cis, w) ->
  let o := init_beanie libs import_module schedule client database
                       connection_string
                       (Some (before ++ Path dot_path :: after)) aid rv in
  o = {| result := Done (Raises e);
         trace := w_trace w ++ [EvGetModel dot_path];
         tasks := [] |}
  /\ Forall (fun ev => is_task_event ev = false) (trace o).
Proof.
  intros Hget Hbefore o.
  assert (Ho : o = {| result := Done (Raises e);
                      trace := w_trace w ++ [EvGetModel dot_path];
                      tasks := [] |}).
  { unfold o.
    apply (loop_stops _ _ _ _ _ _ _ _ _ _ _ _ _
             {| w_queries := w_queries w;
                w_trace := w_trace w ++ [EvGetModel dot_path] |} _ Hbefore).
    unfold loop_body, resolve_entry. unfold bind at 1 2. unfold emit, lift.
    rewrite Hget. reflexivity. }
  split; [exact Ho|]. rewrite Ho. cbn [trace].
  apply Forall_app. split; [|repeat constructor].
  destruct (collect_inits_appends libs import_module client database
              connection_string (Some before) aid rv init_world)
    as (evs & Ht & Hevs).
  rewrite Hbefore in Ht. simpl in Ht. rewrite Ht. exact Hevs.
Qed.

Lemma unresolved_reference_stops_loop_witness :
  init_beanie app_libs app_import (round_robin 1 3) None (Some app_db) None
              (Some ([Class User] ++ Path "app.models.Order" :: [Class Shape]))
              false false
  = {| result := Done (Raises (Exc AttributeError
                   "module 'app.models' has no class called 'Order'"));
       trace := [EvCall "User" (RInitModel false) (Some app_db)]
                ++ [EvGetModel "app.models.Order"];
       tasks := [] |}.
Proof.
  apply (unresolved_reference_stops_loop app_libs app_import (round_robin 1 3) None
           (Some app_db) None [Class User] [Class Shape] "app.models.Order"
           false false
           [coroutine_ok ["create collection"; "create indexes"]]
           {| w_queries := 3;
              w_trace := [EvCall "User" (RInitModel false) (Some app_db)] |});
    reflexivity.
Defined.

(** X9.  A union root whose [init] raises ends the call with that
    exception, at the point of the loop where it stands: its [init] is the
    last thing invoked, and the coroutines created so far are never
    run. *)
Theorem raising_init_stops_loop libs import_module schedule client database
    connection_string (before after : list ModelRef) (m : Model)
    (aid rv : bool) (cis : list Coroutine) (w : World) (e : exn) :
  (forall n, get_model_type m n = UnionDoc) ->
  init m (target_database libs client database connection_string) = Raises e ->
  collect_inits libs import_module client database connection_string
                (Some before) aid rv init_world = (Returns cis, w) ->
  init_beanie libs import_module schedule client database connection_string
              (Some (before ++ Class m :: after)) aid rv
  = {| result := Done (Raises e);
       trace := w_trace w
                ++ [EvCall (model_name m) RInit
                           (target_database libs client database
                                            connection_string)];
       tasks := [] |}.
Proof.
  intros Hk Hinit Hbefore.
  apply (loop_stops _ _ _ _ _ _ _ _ _ _ _ _ _
           {| w_queries := S (w_queries w);
              w_trace := w_trace w
                ++ [EvCall (model_name m) RInit
                           (target_database libs client database
                                            connection_string)] |}
           _ Hbefore).
  unfold loop_body, resolve_entry, call_init, call_get_model_type, bind, emit,
    lift, ret.
  simpl. rewrite Hk. simpl. rewrite Hinit. reflexivity.
Qed.

Lemma raising_init_stops_loop_witness :
  init_beanie app_libs app_import (round_robin 1 3) None (Some app_db) None
              (Some ([Class User] ++ Class Locked :: [Class Metrics]))
              false false
  = {| result := Done (Raises (Exc OperationFailure "not authorized"));
       trace := [EvCall "User" (RInitModel false) (Some app_db)]
                ++ [EvCall "Locked" RInit (Some app_db)];
       tasks := [] |}.
Proof.
  apply (raising_init_stops_loop app_libs app_import (round_robin 1 3) None
           (Some app_db) None [Class User] [Class Metrics] Locked false false
           [coroutine_ok ["create collection"; "create indexes"]]
           {| w_queries := 3;
              w_trace := [EvCall "User" (RInitModel false) (Some app_db)] |});
    first [ reflexivity | intros n; reflexivity ].
Defined.

(** ** More about the gathered batch *)

Lemma created_tasks_not_done (aws : list Coroutine) :
  Forall (fun t => t_done t = false) (map create_task aws).
Proof. induction aws; simpl; constructor; auto. Qed.

Lemma gather_future_inv (aws : list Coroutine) : future_inv (gather aws).
Proof.
  pose proof (created_tasks_not_done aws) as Hnd.
  split; cbn [gather l_tasks l_outer l_trace].
  - eapply Forall_impl; [exact Hnd|]. intros t Ht Hd. congruence.
  - destruct aws as [|c aws]; [constructor|].
    repeat split.
    + eapply Forall_impl; [exact Hnd|]. intros t Ht Hd. congruence.
    + constructor.
Qed.

Lemma forallb_done_all (ts : list Task) :
  forallb t_done ts = true -> Forall (fun t => t_done t = true) ts.
Proof.
  induction ts as [|t ts IH]; simpl; [constructor|].
  intros H. apply andb_true_iff in H as [Ht Hts]. constructor; auto.
Qed.

Lemma all_done_forallb (ts : list Task) :
  Forall (fun t => t_done t = true) ts -> forallb t_done ts = true.
Proof.
  induction 1 as [|t ts Ht _ IH]; simpl; [reflexivity|].
  rewrite Ht, IH. reflexivity.
Qed.

Lemma resume_future_inv (k : nat) (st : Loop) :
  future_inv st -> future_inv (resume k st).
Proof.
  intros [Hset Hout]. unfold resume.
  destruct (l_tasks st !! k) as [t|] eqn:Hk; [|split; assumption].
  destruct (t_done t) eqn:Hd; [split; assumption|].
  pose proof (lookup_lt_Some _ _ _ Hk) as Hlt.
  destruct (t_left t) as [|s rest] eqn:Hleft.
  - split; cbn [l_tasks l_outer l_trace].
    + apply Forall_insert; [exact Hset | intros _; reflexivity].
    + unfold done_callback.
      destruct (l_outer st) as [|[u|e]].
      * destruct Hout as (Hnot & Hret & Hnf).
        destruct (co_result (t_coro t)) as [e|] eqn:Hres.
        -- exists (l_trace st), [], k,
             {| t_coro := t_coro t; t_left := []; t_done := true |}.
           repeat split; auto. apply list_lookup_insert_eq. exact Hlt.
        -- assert (Hret' :
             Forall returned
               (<[k := {| t_coro := t_coro t; t_left := [];
                          t_done := true |}]> (l_tasks st)))
             by (apply Forall_insert; [exact Hret | intros _; exact Hres]).
           destruct (forallb t_done
                       (<[k := {| t_coro := t_coro t; t_left := [];
                                  t_done := true |}]> (l_tasks st)))
             eqn:Hall.
           ++ apply forallb_done_all in Hall.
              rewrite Forall_forall in Hall, Hret'. apply Forall_forall.
              intros x Hx. split; [apply Hall | apply Hret', Hall]; exact Hx.
           ++ repeat split; auto.
              apply Forall_app. split; [exact Hnf | repeat constructor].
      * exfalso. rewrite Forall_lookup in Hout.
        destruct (Hout _ _ Hk) as [Hdone _]. congruence.
      * destruct Hout as (pre & post & j & tj & Htr & Hpre & Hj & Hdj & Hrj).
        exists pre, (post ++ [EvFinish k (co_result (t_coro t))]), j, tj.
        repeat split; auto.
        -- rewrite Htr, <- app_assoc. reflexivity.
        -- rewrite list_lookup_insert_ne; [exact Hj|].
           intros ->. rewrite Hk in Hj. injection Hj as <-. congruence.
  - split; cbn [l_tasks l_outer l_trace].
    + apply Forall_insert; [exact Hset | intros H; discriminate H].
    + destruct (l_outer st) as [|[u|e]].
      * destruct Hout as (Hnot & Hret & Hnf). repeat split.
        -- eapply forallb_done_false;
             [apply list_lookup_insert_eq; exact Hlt | reflexivity].
        -- apply Forall_insert; [exact Hret | intros H; discriminate H].
        -- apply Forall_app. split; [exact Hnf | repeat constructor].
      * exfalso. rewrite Forall_lookup in Hout.
        destruct (Hout _ _ Hk) as [Hdone _]. congruence.
      * destruct Hout as (pre & post & j & tj & Htr & Hpre & Hj & Hdj & Hrj).
        exists pre, (post ++ [EvStep k s]), j, tj.
        repeat split; auto.
        -- rewrite Htr, <- app_assoc. reflexivity.
        -- rewrite list_lookup_insert_ne; [exact Hj|].
           intros ->. rewrite Hk in Hj. injection Hj as <-. congruence.
Qed.

Lemma run_loop_future_inv (schedule : list nat) (st : Loop) :
  future_inv st -> future_inv (run_loop schedule st).
Proof.
  revert st. induction schedule as [|k rest IH]; intros st Hst; [exact Hst|].
  change (run_loop (k :: rest) st) with (run_loop rest (resume k st)).
  apply IH, resume_future_inv, Hst.
Qed.

(** The tasks of a batch that all got their turns have all ended. *)
Lemma gathered_all_done (aws : list Coroutine) (schedule : list nat) :
  enough_turns schedule aws ->
  Forall (fun t => t_done t = true)
         (l_tasks (run_loop schedule (gather aws))).
Proof.
  intros Hturns. apply Forall_lookup. intros j t Hj.
  assert (Hc : aws !! j = Some (t_coro t)).
  { eapply coro_of_task; [|exact Hj].
    rewrite run_loop_coros. apply gather_coros. }
  destruct (gathered_task_completes aws schedule j _ Hc (Hturns _ _ Hc))
    as [Hdone _].
  rewrite Hdone in Hj. injection Hj as <-. reflexivity.
Qed.

Lemma no_failure_before_gather (evs : list Event) :
  Forall before_gather evs -> Forall (fun ev => is_failure ev = false) evs.
Proof.
  intros H. eapply Forall_impl; [exact H|].
  intros [] Hev; try discriminate Hev; reflexivity.
Qed.

(** The events of a call that reached the gather. *)
Lemma gathered_trace libs import_module schedule client database connection_string
    document_models aid rv aws w :
  collect_inits libs import_module client database connection_string
                document_models aid rv init_world = (Returns aws, w) ->
  let o := init_beanie libs import_module schedule client database
                       connection_string document_models aid rv in
  result o = l_outer (run_loop schedule (gather aws))
  /\ tasks o = l_tasks (run_loop schedule (gather aws))
  /\ trace o = w_trace w ++ l_trace (run_loop schedule (gather aws))
  /\ Forall before_gather (w_trace w).
Proof.
  intros Hc o. unfold o, init_beanie. rewrite Hc. repeat split.
  destruct (collect_inits_appends libs import_module client database
              connection_string document_models aid rv init_world)
    as (evs & Ht & Hevs).
  rewrite Hc in Ht. simpl in Ht. rewrite Ht. exact Hevs.
Qed.

Lemma enough_turns_done (aws : list Coroutine) (schedule : list nat) :
  enough_turns schedule aws ->
  exists r, l_outer (run_loop schedule (gather aws)) = Done r.
Proof.
  intros Hturns.
  destruct (run_loop_future_inv schedule _ (gather_future_inv aws))
    as [_ Hout].
  destruct (l_outer (run_loop schedule (gather aws))) as [|r]; [|eauto].
  destruct Hout as (Hnot & _).
  rewrite (all_done_forallb _ (gathered_all_done aws schedule Hturns)) in Hnot.
  discriminate.
Qed.

(** X10.  A call that reached the gather comes to an end, one way or the
    other, once the event loop has given every task of the batch its
    turns: the future that [init_beanie] awaits is then set. *)
Theorem enough_turns_end_call libs import_module schedule client database
    connection_string document_models (aid rv : bool)
    (aws : list Coroutine) (w : World) :
  collect_inits libs import_module client database connection_string
                document_models aid rv init_world = (Returns aws, w) ->
  enough_turns schedule aws ->
  exists r,
    result (init_beanie libs import_module schedule client database
                        connection_string document_models aid rv) = Done r.
Proof.
  intros Hc Hturns.
  destruct (gathered_trace _ _ schedule _ _ _ _ _ _ _ _ Hc) as (-> & _).
  apply enough_turns_done, Hturns.
Qed.

Lemma enough_turns_end_call_witness :
  exists r,
    result (init_beanie app_libs app_import (round_robin 2 3) None (Some app_db) None
                        (Some [Class Slow; Class Broken]) false false)
    = Done r.
Proof.
  apply (enough_turns_end_call app_libs app_import (round_robin 2 3) None
           (Some app_db) None (Some [Class Slow; Class Broken]) false false
           [coroutine_failing ["drop view"; "create view"] timed_out;
            coroutine_failing ["create collection"] index_conflict]
           {| w_queries := 6;
              w_trace := [EvCall "Slow" (RInitView false) (Some app_db);
                          EvCall "Broken" (RInitModel false)
                                 (Some app_db)] |}).
  - reflexivity.
  - intros [|[|j]] c Hj; [| |discriminate Hj];
      injection Hj as <-; simpl; lia.
Defined.

(** X11.  When every coroutine of the batch returns and the event loop
    gives each task its turns, the call returns normally, every task
    having run all its segments. *)
Theorem all_return_call_succeeds libs import_module schedule client database
    connection_string document_models (aid rv : bool)
    (aws : list Coroutine) (w : World) :
  collect_inits libs import_module client database connection_string
                document_models aid rv init_world = (Returns aws, w) ->
  (forall j c, aws !! j = Some c -> co_result c = None) ->
  enough_turns schedule aws ->
  let o := init_beanie libs import_module schedule client database
                       connection_string document_models aid rv in
  result o = Done (Returns tt)
  /\ forall j c, aws !! j = Some c ->
       tasks o !! j = Some {| t_coro := c; t_left := []; t_done := true |}
       /\ List.filter (of_task j) (trace o)
          = map (EvStep j) (co_steps c) ++ [EvFinish j None].
Proof.
  intros Hc Hret Hturns o.
  destruct (gathered_trace _ _ schedule _ _ _ _ _ _ _ _ Hc)
    as (Hres & Htasks & Htrace & Hpre).
  fold o in Hres, Htasks, Htrace. split.
  - destruct (enough_turns_done aws schedule Hturns) as [r Hr].
    rewrite Hres, Hr. destruct r as [[]|e]; [reflexivity|].
    exfalso.
    destruct (run_loop_future_inv schedule _ (gather_future_inv aws))
      as [_ Hout].
    rewrite Hr in Hout.
    destruct Hout as (pre & post & j & t & _ & _ & Hj & _ & Hrj).
    assert (Hcj : aws !! j = Some (t_coro t)).
    { eapply coro_of_task; [|exact Hj].
      rewrite run_loop_coros. apply gather_coros. }
    rewrite (Hret _ _ Hcj) in Hrj. discriminate.
  - intros j c Hj.
    destruct (gathered_task_completes aws schedule j c Hj (Hturns _ _ Hj))
      as [Hdone Hevs].
    rewrite Htasks, Htrace, List.filter_app, Hevs.
    rewrite (no_task_events_before_gather j _ Hpre), (Hret _ _ Hj).
    split; [exact Hdone | reflexivity].
Qed.

Lemma all_return_call_succeeds_witness :
  result (init_beanie app_libs app_import (round_robin 2 3) None (Some app_db) None
                      (Some [Class Shape; Class User; Class Metrics])
                      false false)
  = Done (Returns tt).
Proof.
  apply (all_return_call_succeeds app_libs app_import (round_robin 2 3) None
           (Some app_db) None (Some [Class Shape; Class User; Class Metrics])
           false false
           [coroutine_ok ["create collection"; "create indexes"];
            coroutine_ok ["create view"]]
           {| w_queries := 9;
              w_trace := [EvCall "Shape" RInit (Some app_db);
                          EvCall "User" (RInitModel false) (Some app_db);
                          EvCall "Metrics" (RInitView false)
                                 (Some app_db)] |}).
  - reflexivity.
  - intros [|[|j]] c Hj; [| |discriminate Hj];
      injection Hj as <-; reflexivity.
  - intros [|[|j]] c Hj; [| |discriminate Hj];
      injection Hj as <-; simpl; lia.
Defined.

(** X12.  Under any schedule, a call returns normally only when every
    task of the batch has ended, with no segment left, and has returned:
    the call never succeeds while a coroutine is still running, or after
    one has raised. *)
Theorem success_means_all_ended libs import_module schedule client database
    connection_string document_models (aid rv : bool) :
  let o := init_beanie libs import_module schedule client database
                       connection_string document_models aid rv in
  result o = Done (Returns tt) ->
  Forall (fun t => t_done t = true /\ t_left t = []
                   /\ co_result (t_coro t) = None)
         (tasks o).
Proof.
  intros o Hok. unfold o, init_beanie in *.
  destruct (collect_inits libs import_module client database connection_string
              document_models aid rv init_world) as [[aws|e] w];
    [|discriminate].
  cbn [result tasks] in *.
  destruct (run_loop_future_inv schedule _ (gather_future_inv aws))
    as [Hset Hout].
  rewrite Hok in Hout.
  rewrite Forall_forall in Hset, Hout. apply Forall_forall. intros t Ht.
  destruct (Hout _ Ht) as [Hd Hr]. repeat split; auto. apply Hset; auto.
Qed.

Lemma success_means_all_ended_witness :
  Forall (fun t => t_done t = true /\ t_left t = []
                   /\ co_result (t_coro t) = None)
         (tasks (init_beanie app_libs app_import [1; 0; 1; 0; 0] None (Some app_db)
                             None (Some [Class User; Class Metrics])
                             false false)).
Proof.
  apply (success_means_all_ended app_libs app_import [1; 0; 1; 0; 0] None
           (Some app_db) None (Some [Class User; Class Metrics]) false false).
  reflexivity.
Defined.

(** X13.  Under any schedule, when the gathered batch makes the call
    fail, the exception of the call is that of the task that raised
    first: in the trace, the end of that task with that exception comes
    before the end of any other task that raised. *)
Theorem first_failure_fails_call libs import_module schedule client database
    connection_string document_models (aid rv : bool)
    (aws : list Coroutine) (w : World) (e : exn) :
  collect_inits libs import_module client database connection_string
                document_models aid rv init_world = (Returns aws, w) ->
  let o := init_beanie libs import_module schedule client database
                       connection_string document_models aid rv in
  result o = Done (Raises e) ->
  exists pre post j c,
    trace o = pre ++ EvFinish j (Some e) :: post
    /\ Forall (fun ev => is_failure ev = false) pre
    /\ aws !! j = Some c
    /\ co_result c = Some e.
Proof.
  intros Hc o Hfail.
  destruct (gathered_trace _ _ schedule _ _ _ _ _ _ _ _ Hc)
    as (Hres & _ & Htrace & Hpre).
  fold o in Hres, Htrace. rewrite Hres in Hfail.
  destruct (run_loop_future_inv schedule _ (gather_future_inv aws))
    as [_ Hout].
  rewrite Hfail in Hout.
  destruct Hout as (pre & post & j & t & Htr & Hnf & Hj & _ & Hrj).
  exists (w_trace w ++ pre), post, j, (t_coro t). repeat split.
  - rewrite Htrace, Htr, app_assoc. reflexivity.
  - apply Forall_app. split; [apply no_failure_before_gather, Hpre | exact Hnf].
  - eapply coro_of_task; [|exact Hj].
    rewrite run_loop_coros. apply gather_coros.
  - exact Hrj.
Qed.

Lemma first_failure_fails_call_witness :
  let o := init_beanie app_libs app_import (round_robin 2 3) None (Some app_db) None
                       (Some [Class Slow; Class Broken]) false false in
  result o = Done (Raises index_conflict)
  /\ exists pre post j c,
       trace o = pre ++ EvFinish j (Some index_conflict) :: post
       /\ Forall (fun ev => is_failure ev = false) pre
       /\ [coroutine_failing ["drop view"; "create view"] timed_out;
           coroutine_failing ["create collection"] index_conflict] !! j
          = Some c
       /\ co_result c = Some index_conflict.
Proof.
  intros o. split; [reflexivity|].
  apply (first_failure_fails_call app_libs app_import (round_robin 2 3) None
           (Some app_db) None (Some [Class Slow; Class Broken]) false false
           [coroutine_failing ["drop view"; "create view"] timed_out;
            coroutine_failing ["create collection"] index_conflict]
           {| w_queries := 6;
              w_trace := [EvCall "Slow" (RInitView false) (Some app_db);
                          EvCall "Broken" (RInitModel false)
                                 (Some app_db)] |});
    reflexivity.
Defined.


